(** * Netzbremse dashboard: aggregation and summarisation layer

    A shallow embedding of the data-preparation logic of
    [app/app.py], [app/charts.py] and [app/components.py].

    Conventions of the embedding:
    - a pandas [DataFrame] is a [list row]; row order is the frame's order;
    - a tz-aware timestamp is an instant (seconds since the epoch) together
      with the UTC offset of the display timezone at that instant;
      comparisons, sorting and grouping go by the instant, [.dt.hour] by the
      wall clock;
    - a float cell is an exact rational, or missing ([None] stands for NaN);
      rounding of floating-point arithmetic is not modelled;
    - Python [int]s are [Z]. *)

From Stdlib Require Import String Ascii DecimalString ZArith QArith Qround Qabs.
From Stdlib Require Import List Bool Lia Lqa.
From Stdlib Require Import Sorting.Sorted Sorting.Permutation.
Import ListNotations.

Local Open Scope Z_scope.

(** ** Python built-ins used by the sources *)

Module Py.

(** [max(a, b)] and [min(a, b)] on keys compared through [key]: Python keeps
    the first argument unless the second is strictly larger (smaller). *)
Definition max {A} (key : A -> Z) (a b : A) : A :=
  if key a <? key b then b else a.

Definition min {A} (key : A -> Z) (a b : A) : A :=
  if key b <? key a then b else a.

(** Normalisation of one slice bound against a sequence of length [len]
    (CPython's [PySlice_AdjustIndices], step 1). *)
Definition adjust (len : Z) (i : Z) : Z :=
  if i <? 0 then Z.max 0 (i + len) else Z.min i len.

(** [l[start:stop]] with optional bounds. *)
Definition slice {A} (start stop : option Z) (l : list A) : list A :=
  let len := Z.of_nat (length l) in
  let lo := match start with Some i => adjust len i | None => 0 end in
  let hi := match stop with Some i => adjust len i | None => len end in
  firstn (Z.to_nat (hi - lo)) (skipn (Z.to_nat lo) l).

End Py.

(** ** Frames *)

Record Timestamp := mkTimestamp {
  instant : Z;      (* seconds since the epoch *)
  utcoffset : Z     (* seconds east of UTC at that instant *)
}.

(** [Timestamp.hour]: hour of the wall clock, 0..23. *)
Definition hour (t : Timestamp) : Z :=
  ((instant t + utcoffset t) / 3600) mod 24.

Definition cell := option Q.

Record row := mkRow {
  timestamp : Timestamp;
  endpoint : string;
  download : cell;
  upload : cell;
  latency : cell;
  jitter : cell
}.

Definition DataFrame := list row.

(** The selected metric: one of the four keys of the KPI selector. *)
Inductive Metric := Download | Upload | Latency | Jitter.

Definition metric_name (m : Metric) : string :=
  match m with
  | Download => "download" | Upload => "upload"
  | Latency => "latency" | Jitter => "jitter"
  end.

(** [df[metric_key]] read row by row. *)
Definition column (m : Metric) (r : row) : cell :=
  match m with
  | Download => download r | Upload => upload r
  | Latency => latency r | Jitter => jitter r
  end.

(** A pandas [Series] indexed by labels, and [Series.get]. *)
Definition Series := list (string * cell).

Fixpoint Series_get (s : Series) (k : string) : option cell :=
  match s with
  | [] => None
  | (k', v) :: s' => if String.eqb k' k then Some v else Series_get s' k
  end.

(** [pd.isna] on the result of [Series.get]: an absent label gives Python's
    [None], a missing value is NaN; both count as missing. *)
Definition isna (v : option cell) : bool :=
  match v with Some (Some _) => false | _ => true end.

Module Frame.

(** Values that are not missing, in order ([Series.dropna]). *)
Fixpoint dropna (l : list cell) : list Q :=
  match l with
  | [] => []
  | Some x :: l' => x :: dropna l'
  | None :: l' => dropna l'
  end.

Fixpoint insert_q (x : Q) (l : list Q) : list Q :=
  match l with
  | [] => [x]
  | y :: l' => if Qle_bool x y then x :: l else y :: insert_q x l'
  end.

Definition sort_q (l : list Q) : list Q := fold_right insert_q [] l.

Definition sum_q (l : list Q) : Q := fold_right Qplus 0%Q l.

Definition of_nat (n : nat) : Q := inject_Z (Z.of_nat n).

(** [Series.mean()]: the mean of the values present, NaN when there are
    none. *)
Definition mean (l : list cell) : cell :=
  match dropna l with
  | [] => None
  | xs => Some (sum_q xs / of_nat (List.length xs))%Q
  end.

(** [Series.count()]: how many values are present. *)
Definition count (l : list cell) : cell :=
  Some (of_nat (List.length (dropna l))).

(** The ["median"] aggregation: the middle order statistic, or the mean of
    the two middle ones; NaN when no value is present. *)
Definition median (l : list cell) : cell :=
  let xs := sort_q (dropna l) in
  let n := List.length xs in
  match n with
  | O => None
  | _ =>
      if Nat.odd n then Some (nth (n / 2) xs 0%Q)
      else Some ((nth (n / 2 - 1) xs 0%Q + nth (n / 2) xs 0%Q) / 2)%Q
  end.

(** Linear interpolation at the virtual index [pos] of a sorted list: [pos]
    is split into its floor and its fractional part, and the result lies
    between the two neighbouring order statistics (the upper index is kept
    inside the list). *)
Definition interpolate (xs : list Q) (pos : Q) : Q :=
  let n := List.length xs in
  let lo := Z.to_nat (Qfloor pos) in
  let hi := Nat.min (lo + 1) (n - 1) in
  let frac := (pos - of_nat lo)%Q in
  (nth lo xs 0 + (nth hi xs 0 - nth lo xs 0) * frac)%Q.

(** [Series.quantile(q)] with the default linear interpolation, at the
    virtual index [q * (n - 1)]; NaN when no value is present. *)
Definition quantile (q : Q) (l : list cell) : cell :=
  let xs := sort_q (dropna l) in
  let n := List.length xs in
  match n with
  | O => None
  | _ => Some (interpolate xs (q * of_nat (n - 1)))
  end.

(** [DataFrame.mean(numeric_only=True)]: one entry per numeric column. *)
Definition mean_numeric (df : DataFrame) : Series :=
  map (fun m => (metric_name m, mean (map (column m) df)))
      [Download; Upload; Latency; Jitter].

(** [df.sort_values("timestamp")]: ascending by instant.  pandas leaves the
    order of rows with equal timestamps to the sorting algorithm; here they
    keep the order of the frame. *)
Fixpoint insert_row (r : row) (l : list row) : list row :=
  match l with
  | [] => [r]
  | r' :: l' =>
      if instant (timestamp r) <=? instant (timestamp r') then r :: l
      else r' :: insert_row r l'
  end.

Definition sort_values (df : DataFrame) : DataFrame :=
  fold_right insert_row [] df.

(** Ascending order of rows by timestamp. *)
Definition ts_le (a b : row) : Prop :=
  instant (timestamp a) <= instant (timestamp b).

(** [Series.max()] of a timestamp column; [None] is NaT (empty column). *)
Fixpoint max_timestamp (l : list Timestamp) : option Timestamp :=
  match l with
  | [] => None
  | t :: l' =>
      match max_timestamp l' with
      | None => Some t
      | Some m => Some (Py.max instant t m)
      end
  end.

(** [groupby]: the distinct keys in ascending order, each with its rows in
    frame order. *)
Section GroupBy.
Context {K : Type} (cmp : K -> K -> comparison).

Fixpoint insert_key (k : K) (ks : list K) : list K :=
  match ks with
  | [] => [k]
  | k' :: ks' =>
      match cmp k k' with
      | Lt => k :: ks
      | Eq => ks
      | Gt => k' :: insert_key k ks'
      end
  end.

Definition unique_sorted (l : list K) : list K :=
  fold_right insert_key [] l.

Definition same_key (k k' : K) : bool :=
  match cmp k k' with Eq => true | _ => false end.

Definition key_lt (k k' : K) : Prop := cmp k k' = Lt.

Definition groupby (key : row -> K) (df : DataFrame)
  : list (K * list row) :=
  map (fun k => (k, filter (fun r => same_key (key r) k) df))
      (unique_sorted (map key df)).
End GroupBy.

(** Named aggregation [.agg(name=(column, f), ...)] followed by
    [reset_index()]: one output row per group, holding the group key and one
    named value per aggregation. *)
Definition agg {K} (m : Metric) (spec : list (string * (list cell -> cell)))
  (groups : list (K * list row)) : list (K * Series) :=
  map (fun g =>
         (fst g, map (fun na => (fst na, snd na (map (column m) (snd g))))
                     spec))
      groups.

(** Order of the composite key [(timestamp, endpoint)]. *)
Definition cmp_pair (a b : Z * string) : comparison :=
  match Z.compare (fst a) (fst b) with
  | Eq => String.compare (snd a) (snd b)
  | c => c
  end.

End Frame.

(** ** urllib.parse: the network location of a URL *)

Module Url.

Local Open Scope string_scope.

Definition is_c0_or_space (c : ascii) : bool :=
  (nat_of_ascii c <=? 32)%nat.

Fixpoint lstrip (s : string) : string :=
  match s with
  | String c s' => if is_c0_or_space c then lstrip s' else s
  | EmptyString => s
  end.

Definition unsafe (c : ascii) : bool :=
  Ascii.eqb c "009"%char || Ascii.eqb c "013"%char || Ascii.eqb c "010"%char.

Fixpoint remove_unsafe (s : string) : string :=
  match s with
  | String c s' =>
      if unsafe c then remove_unsafe s' else String c (remove_unsafe s')
  | EmptyString => EmptyString
  end.

(** [s.find(c)]. *)
Fixpoint find (c : ascii) (s : string) : option nat :=
  match s with
  | EmptyString => None
  | String c' s' =>
      if Ascii.eqb c' c then Some O else option_map S (find c s')
  end.

Definition contains (c : ascii) (s : string) : bool :=
  match find c s with Some _ => true | None => false end.

Fixpoint forallb (p : ascii -> bool) (s : string) : bool :=
  match s with
  | EmptyString => true
  | String c s' => p c && forallb p s'
  end.

Definition is_alpha (c : ascii) : bool :=
  let n := nat_of_ascii c in
  ((65 <=? n) && (n <=? 90) || (97 <=? n) && (n <=? 122))%nat.

Definition is_digit (c : ascii) : bool :=
  let n := nat_of_ascii c in ((48 <=? n) && (n <=? 57))%nat.

Definition scheme_char (c : ascii) : bool :=
  is_alpha c || is_digit c
  || Ascii.eqb c "+"%char || Ascii.eqb c "-"%char || Ascii.eqb c "."%char.

Definition is_ascii (c : ascii) : bool := (nat_of_ascii c <? 128)%nat.

(** The characters before the first one that satisfies [stop]. *)
Fixpoint take_until (stop : ascii -> bool) (s : string) : string :=
  match s with
  | EmptyString => EmptyString
  | String c s' => if stop c then EmptyString else String c (take_until stop s')
  end.

Definition drop (n : nat) (s : string) : string :=
  substring n (String.length s - n) s.

(** [_splitnetloc(url, 2)], first component: from index 2 up to the first
    of [/], [?], [#]. *)
Definition netloc_delim (c : ascii) : bool :=
  Ascii.eqb c "/"%char || Ascii.eqb c "?"%char || Ascii.eqb c "#"%char.

Definition _splitnetloc (url : string) : string :=
  take_until netloc_delim (drop 2 url).

Section Parse.
(** Two checks of the library are left to the caller of the model:
    [bracketed_ok] is [_check_bracketed_netloc] on a network location that
    holds both brackets, [nfkc_ok] is the normalisation check of
    [_checknetloc] on one that is not pure ASCII.  Each answers whether
    the library accepts the network location ([false]: it raises
    [ValueError]). *)
Variable bracketed_ok : string -> bool.
Variable nfkc_ok : string -> bool.

(** The url after the scheme, if it has one, is cut off. *)
Definition strip_scheme (url : string) : string :=
  match find ":"%char url with
  | Some (S i') =>
      let i := S i' in
      match url with
      | String c0 _ =>
          if is_ascii c0 && is_alpha c0
             && forallb scheme_char (substring 0 i url)
          then drop (i + 1) url
          else url
      | EmptyString => url
      end
  | _ => url
  end.

(** [urlparse(url).netloc]; [None] when the parser raises. *)
Definition urlparse_netloc (url : string) : option string :=
  let url := remove_unsafe (lstrip url) in
  let url := strip_scheme url in
  let netloc :=
    if String.eqb (substring 0 2 url) "//" then _splitnetloc url else "" in
  let lb := contains "["%char netloc in
  let rb := contains "]"%char netloc in
  if xorb lb rb then None
  else if lb && rb && negb (bracketed_ok netloc) then None
  else if negb (String.eqb netloc "") && negb (forallb is_ascii netloc)
          && negb (nfkc_ok netloc) then None
  else Some netloc.
End Parse.

End Url.

(** ** charts.py *)

Module Charts.

Local Open Scope string_scope.

Definition MAGENTA_PALETTE : list string :=
  [ "#f8bbd9"; "#f48fb1"; "#f06292"; "#ec407a"; "#e91e63";
    "#d81b60"; "#c2185b"; "#ad1457"; "#880e4f"; "#6a1b4d" ].

(** [hostname.split(".")[0]]. *)
Definition first_part_of (hostname : string) : string :=
  Url.take_until (Ascii.eqb "."%char) hostname.

Section Shorten.
Variable bracketed_ok : string -> bool.
Variable nfkc_ok : string -> bool.

Definition _shorten_endpoint (url : string) : string :=
  match Url.urlparse_netloc bracketed_ok nfkc_ok url with
  | None => url
  | Some netloc =>
      let hostname := if String.eqb netloc "" then url else netloc in
      let first_part := first_part_of hostname in
      if String.eqb first_part "" then url else first_part
  end.
End Shorten.

(** [alt.Scale(domain=..., range=...)]. *)
Record Scale := mkScale { domain : list string; range : list string }.

Definition _get_endpoint_color_scale (endpoints : list string) : Scale :=
  let n_endpoints := List.length endpoints in
  let colors :=
    if (n_endpoints <=? List.length MAGENTA_PALETTE)%nat
    then firstn n_endpoints MAGENTA_PALETTE
    else map (fun i => nth (i mod List.length MAGENTA_PALETTE)
                           MAGENTA_PALETTE "")
             (seq 0 n_endpoints) in
  mkScale endpoints colors.

(** The colour a scale gives to a label: the range entry at the position of
    the label in the domain. *)
Fixpoint lookup (dom rng : list string) (label : string) : option string :=
  match dom, rng with
  | d :: dom', c :: rng' =>
      if String.eqb d label then Some c else lookup dom' rng' label
  | _, _ => None
  end.

Definition color_of (s : Scale) (label : string) : option string :=
  lookup (domain s) (range s) label.

Definition q25 : Q := 25 # 100.
Definition q75 : Q := 75 # 100.

(** What a chart function hands to the plotting toolkit: the placeholder
    for an empty frame, or the prepared table. *)
Inductive Chart (T : Type) :=
  | NoData : Chart T
  | Layers : T -> Chart T.
Arguments NoData {T}.
Arguments Layers {T} _.

(** [create_median_band_chart], lines 69-85. *)
Definition create_median_band_chart (df : DataFrame) (metric_key : Metric)
  : Chart (list (Z * Series)) :=
  match df with
  | [] => NoData
  | _ =>
      Layers
        (Frame.agg metric_key
           [ ("median", Frame.median);
             ("q25", Frame.quantile q25);
             ("q75", Frame.quantile q75) ]
           (Frame.groupby Z.compare (fun r => instant (timestamp r)) df))
  end.

(** [create_24h_median_band_chart], lines 234-255. *)
Definition create_24h_median_band_chart (df : DataFrame) (metric_key : Metric)
  : Chart (list (Z * Series)) :=
  match df with
  | [] => NoData
  | _ =>
      Layers
        (Frame.agg metric_key
           [ ("median", Frame.median);
             ("q25", Frame.quantile q25);
             ("q75", Frame.quantile q75);
             ("count", Frame.count) ]
           (Frame.groupby Z.compare (fun r => hour (timestamp r)) df))
  end.

(** The band of a statistics record is ordered when its three quantile
    fields hold numbers with q25 <= median <= q75 (a comparison with NaN is
    false); it is missing when all three are NaN. *)
Definition band_ordered (s : Series) : Prop :=
  exists a b c,
    Series_get s "q25" = Some (Some a)
    /\ Series_get s "median" = Some (Some b)
    /\ Series_get s "q75" = Some (Some c)
    /\ (a <= b)%Q /\ (b <= c)%Q.

Definition band_missing (s : Series) : Prop :=
  Series_get s "q25" = Some None
  /\ Series_get s "median" = Some None
  /\ Series_get s "q75" = Some None.

(** A point of an endpoint series: bucket, endpoint label, mean. *)
Record SeriesPoint := mkPoint {
  bucket : Z;
  label : string;
  value : cell
}.

Section EndpointLines.
Variable bracketed_ok : string -> bool.
Variable nfkc_ok : string -> bool.

(** Lines 168-169 and 341-342: group by bucket and raw endpoint, take the
    mean, then shorten the endpoint column. *)
Definition grouped_df (bucket_of : Timestamp -> Z) (df : DataFrame)
  (metric_key : Metric) : list SeriesPoint :=
  map (fun g =>
         mkPoint (fst (fst g))
                 (_shorten_endpoint bracketed_ok nfkc_ok (snd (fst g)))
                 (Frame.mean (map (column metric_key) (snd g))))
      (Frame.groupby Frame.cmp_pair
         (fun r => (bucket_of (timestamp r), endpoint r)) df).

(** Lines 171-172 and 344-345. *)
Definition endpoints_of (points : list SeriesPoint) : list string :=
  Frame.unique_sorted String.compare (map label points).

Definition endpoint_lines (bucket_of : Timestamp -> Z) (df : DataFrame)
  (metric_key : Metric) : Chart (list SeriesPoint * Scale) :=
  match df with
  | [] => NoData
  | _ =>
      let g := grouped_df bucket_of df metric_key in
      Layers (g, _get_endpoint_color_scale (endpoints_of g))
  end.

Definition create_endpoint_lines_chart :=
  endpoint_lines instant.

Definition create_24h_endpoint_lines_chart :=
  endpoint_lines (fun t => hour t).
End EndpointLines.

(** [render_24h_section], lines 440-447: the set of the hours of day that
    occur in the frame, each hour once, and the number of hours missing. *)
Definition present_hours (df : DataFrame) : list Z :=
  nodup Z.eq_dec (map (fun r => hour (timestamp r)) df).

Definition missing_hours (df : DataFrame) : Z :=
  match df with
  | [] => 24
  | _ => 24 - Z.of_nat (List.length (present_hours df))
  end.

(** The 24 slots of the day. *)
Definition all_hours : list Z := map Z.of_nat (seq 0 24).

End Charts.

(** ** components.py *)

Module Components.

Local Open Scope string_scope.

(** [f"{percent:+.1f}%"] on an exact rational: sign, the value rounded to
    one decimal (ties to even), percent sign. *)
Definition round_half_even (q : Q) : Z :=
  let f := Qfloor q in
  let r := (q - inject_Z f)%Q in
  match Qcompare r (1 # 2) with
  | Lt => f
  | Gt => f + 1
  | Eq => if Z.even f then f else f + 1
  end.

Definition format_percent (percent : Q) : string :=
  let tenths := round_half_even (Qabs percent * 10) in
  let sign := if Qlt_le_dec percent 0 then "-" else "+" in
  sign
  ++ DecimalString.NilZero.string_of_uint (N.to_uint (Z.to_N (tenths / 10)))
  ++ "."
  ++ DecimalString.NilZero.string_of_uint (N.to_uint (Z.to_N (tenths mod 10)))
  ++ "%".

(** Lines 40-48. *)
Definition _percent_diff (previous latest : Series) (metric_key : string)
  : option string :=
  match previous with
  | [] => None
  | _ =>
      let prev_value := Series_get previous metric_key in
      let latest_value := Series_get latest metric_key in
      match prev_value, latest_value with
      | Some (Some p), Some (Some l) =>
          if Qeq_bool p 0 then None
          else Some (format_percent ((l - p) / p * 100))
      | _, _ => None
      end
  end.

Record Summary := mkSummary {
  df_sorted : DataFrame;
  run_size : Z;
  latest_run : DataFrame;
  latest : Series;
  latest_timestamp : option Timestamp;
  previous_run : DataFrame;
  previous : Series
}.

(** Lines 18-38.  [None]: the frame is empty and only a warning is shown. *)
Definition render_latest_summary (df : DataFrame) (run_size : Z)
  : option Summary :=
  match df with
  | [] => None
  | _ =>
      let df_sorted := Frame.sort_values df in
      let len := Z.of_nat (List.length df_sorted) in
      let run_size :=
        Py.min (fun z => z) (Py.max (fun z => z) run_size 1) len in
      let latest_run := Py.slice (Some (- run_size)) None df_sorted in
      let latest := Frame.mean_numeric latest_run in
      let latest_timestamp :=
        Frame.max_timestamp (map timestamp latest_run) in
      let previous_run :=
        if len >=? run_size * 2
        then Py.slice (Some (- (run_size * 2))) (Some (- run_size)) df_sorted
        else [] in
      let previous :=
        match previous_run with
        | [] => []
        | _ => Frame.mean_numeric previous_run
        end in
      Some (mkSummary df_sorted run_size latest_run latest latest_timestamp
                      previous_run previous)
  end.

(** The [delta] of the card of one metric. *)
Definition delta (s : Summary) (m : Metric) : option string :=
  _percent_diff (previous s) (latest s) (metric_name m).

End Components.

(** ** app.py: the date-time window *)

Module App.

(** Lines 214-223: clamp the requested range to the data range and
    validate it.  [min_dt] and [max_dt] are the data bounds tagged with the
    display zone, which the converted frame already carries.
    [validation_error] is [None] exactly when the range may be applied. *)
Definition clamped_start (input_start min_dt : Timestamp) : Timestamp :=
  Py.max instant input_start min_dt.

Definition clamped_end (input_end max_dt : Timestamp) : Timestamp :=
  Py.min instant input_end max_dt.

Definition validation_error (cs ce : Timestamp) : option string :=
  if instant cs >=? instant ce
  then Some "Start date/time must be before end date/time."%string
  else None.

Definition apply_disabled (cs ce : Timestamp) : bool :=
  match validation_error cs ce with Some _ => true | None => false end.

Definition valid (cs ce : Timestamp) : bool := negb (apply_disabled cs ce).

(** Lines 259-262: the chart subset. *)
Definition chart_df (df : DataFrame) (chart_start chart_end : Timestamp)
  : DataFrame :=
  filter (fun r =>
            (instant chart_start <=? instant (timestamp r))
            && (instant (timestamp r) <=? instant chart_end)) df.

End App.

(** ** app.py: startup checks and defaults *)

Module Dashboard.

Local Open Scope string_scope.

(** Lines 36 and 39. *)
Definition RECENT_COUNT : Z := 5.

(** Lines 124-128: the age of the last measurement as it is shown, in days
    from 48 hours on and in hours below.  [round(x)] and the [.0f] format
    round to the nearest integer, ties to even; [round(x, 1)] to the nearest
    tenth. *)
Inductive TimeAgo :=
  | Days (n : Z)
  | Hours (n : Z).

Definition time_ago (total_seconds : Q) : TimeAgo :=
  let total_hours := (total_seconds / 3600)%Q in
  if Qle_bool 48 total_hours
  then Days (Components.round_half_even (total_hours / 24))
  else
    let tenths := Components.round_half_even (total_hours * 10) in
    Hours (Components.round_half_even (inject_Z tenths / 10)).

Definition decimal (n : Z) : string :=
  DecimalString.NilZero.string_of_uint (N.to_uint (Z.to_N n)).

Definition time_ago_str (a : TimeAgo) : string :=
  match a with
  | Days n => decimal n ++ " days"
  | Hours n => decimal n ++ " hours"
  end.

(** Lines 119-137: the stale-data check of a non-empty frame; [None] when
    no warning is shown. *)
Definition stale_warning (now latest_measurement : Timestamp)
  : option TimeAgo :=
  let time_since_last := instant now - instant latest_measurement in
  if (2 * 3600 <? time_since_last)%Z
  then Some (time_ago (inject_Z time_since_last))
  else None.

Section Zone.
(** The UTC offset of the display zone at an instant. *)
Variable zone : Z -> Z.


End Zone.

(** Lines 398-404: the coverage warning under the 24-hour charts. *)
Definition coverage_warning (missing_hours : Z) : bool :=
  (0 <? missing_hours)%Z.

Definition hours_with_data (missing_hours : Z) : Z := 24 - missing_hours.

End Dashboard.

(** ** charts.py: the two chart sections *)

Module Sections.

Section Render.
Variable bracketed_ok : string -> bool.
Variable nfkc_ok : string -> bool.

(** Lines 407-425. *)
Definition render_longterm_section (df : DataFrame) (metric_key : Metric) :=
  (Charts.create_median_band_chart df metric_key,
   Charts.create_endpoint_lines_chart bracketed_ok nfkc_ok df metric_key).

(** Lines 440-465. *)
Definition render_24h_section (df : DataFrame) (metric_key : Metric) :=
  (Charts.create_24h_median_band_chart df metric_key,
   Charts.create_24h_endpoint_lines_chart bracketed_ok nfkc_ok df metric_key,
   Charts.missing_hours df).
End Render.

(** The count field of a statistics record, 0 when it has none. *)
Definition count_of (s : Series) : Q :=
  match Series_get s "count" with
  | Some (Some c) => c
  | _ => 0%Q
  end.

End Sections.

(** ** components.py: the cards and the table of the latest run *)

Module Cards.

Local Open Scope string_scope.

(** Line 12: the default run size. *)
Definition default_run_size : Z := 5.

(** Lines 58-83: the deltas of the four cards. *)
Definition deltas (s : Components.Summary) : list (option string) :=
  map (Components.delta s) [Download; Upload; Latency; Jitter].








End Cards.

(** ** The network location before the library's checks *)

Module Netloc.

(** The url as the parser sees it. *)
Definition cleaned (url : string) : string :=
  Url.remove_unsafe (Url.lstrip url).

(** The network location of a url whose scheme is already cut off. *)
Definition after_scheme (u : string) : string :=
  if String.eqb (substring 0 2 u) "//" then Url._splitnetloc u
  else EmptyString.

(** The network location the parser splits off, checked or not. *)
Definition candidate (url : string) : string :=
  after_scheme (Url.strip_scheme (cleaned url)).

End Netloc.

(** Civil dates for the examples: days since 1970-01-01 of a Gregorian
    date, and the instant of a wall-clock time at a fixed offset. *)
Definition days_from_civil (y m d : Z) : Z :=
  let y' := if m <=? 2 then y - 1 else y in
  let era := y' / 400 in
  let yoe := y' - era * 400 in
  let mp := (m + 9) mod 12 in
  let doy := (153 * mp + 2) / 5 + d - 1 in
  let doe := yoe * 365 + yoe / 4 - yoe / 100 + doy in
  era * 146097 + doe - 719468.

Definition at_offset (off : Z) (y m d hh mm : Z) : Timestamp :=
  mkTimestamp (days_from_civil y m d * 86400 + hh * 3600 + mm * 60 - off) off.

(** Central European (winter) time. *)
Definition cet := at_offset 3600.

(** Sample rows for the examples: every metric present. *)
Definition sample (t : Timestamp) (e : string) (v : Q) : row :=
  mkRow t e (Some v) (Some v) (Some v) (Some v).

Definition noon := cet 2024 1 5 12 0.

Definition row_at_noon : row := sample noon "https://a.example.com" 50.

(** A reading whose metric values are all missing. *)
Definition row_missing : row :=
  mkRow noon "https://a.example.com" None None None None.

(** Four readings of one instant and one of the next hour. *)
Definition five_readings : DataFrame :=
  [ sample noon "https://a.example.com" 4;
    sample noon "https://b.example.com" 1;
    sample noon "https://c.example.com" (7 # 2);
    sample (cet 2024 1 5 13 0) "https://a.example.com" 9;
    sample noon "https://d.example.com" 2 ].

(** Twelve readings, one a minute, stored out of order: the reading of
    minute [k] carries the value [k]. *)
Definition reading (k : Z) : row :=
  sample (cet 2024 1 5 12 k) "https://a.example.com" (inject_Z k).

Definition df12 : DataFrame :=
  map reading [7; 3; 12; 1; 9; 5; 11; 2; 8; 4; 10; 6].

(** A library that accepts every bracketed or non-ASCII network location
    (neither occurs in the examples). *)
Definition accept_all (_ : string) : bool := true.

(** Two readings of the same instant from two endpoints whose labels
    coincide. *)
Definition two_hosts : DataFrame :=
  [ sample noon "https://custom-t0.speed.example.com" 10;
    sample noon "https://custom-t0.speed.example.org" 30 ].

Definition labels12 : list string :=
  ["a"; "b"; "c"; "d"; "e"; "f"; "g"; "h"; "i"; "j"; "k"; "l"]%string.

(** * Theorems *)

Section Window.

Import App.

Lemma py_max_instant (a b : Timestamp) :
  instant (Py.max instant a b) = Z.max (instant a) (instant b).
Proof.
  unfold Py.max. destruct (Z.ltb_spec (instant a) (instant b)); lia.
Qed.

Lemma py_min_instant (a b : Timestamp) :
  instant (Py.min instant a b) = Z.min (instant a) (instant b).
Proof.
  unfold Py.min. destruct (Z.ltb_spec (instant b) (instant a)); lia.
Qed.

(** C8. The Window Clamper is a total function of the four instants: the
    clamped start is the later of the requested start and the data minimum,
    the clamped end the earlier of the requested end and the data maximum
    (each is one of its two arguments), and the range is valid exactly when
    the clamped start is strictly before the clamped end.  This holds for
    all requests, also those outside the data range; the two worked examples
    of the specification evaluate as stated. *)
Theorem window_clamper_total (min_t max_t req_s req_e : Timestamp) :
  let cs := clamped_start req_s min_t in
  let ce := clamped_end req_e max_t in
  instant cs = Z.max (instant req_s) (instant min_t)
  /\ instant ce = Z.min (instant req_e) (instant max_t)
  /\ (cs = req_s \/ cs = min_t)
  /\ (ce = req_e \/ ce = max_t)
  /\ valid cs ce = (instant cs <? instant ce)
  /\ (validation_error cs ce = None <-> instant cs < instant ce)
  /\ (let lo := cet 2024 1 1 0 0 in
      let hi := cet 2024 1 10 0 0 in
      clamped_start (cet 2023 12 1 0 0) lo = lo
      /\ clamped_end (cet 2024 1 5 0 0) hi = cet 2024 1 5 0 0
      /\ valid lo (cet 2024 1 5 0 0) = true
      /\ valid (clamped_start (cet 2024 1 8 0 0) lo)
               (clamped_end (cet 2024 1 8 0 0) hi) = false).
Proof.
  cbv zeta. unfold clamped_start, clamped_end.
  rewrite py_max_instant, py_min_instant.
  split; [reflexivity|]. split; [reflexivity|].
  split. { unfold Py.max. destruct (_ <? _); auto. }
  split. { unfold Py.min. destruct (_ <? _); auto. }
  split.
  { unfold valid, apply_disabled, validation_error.
    rewrite Z.geb_leb, py_max_instant, py_min_instant.
    destruct (Z.leb_spec (Z.min (instant req_e) (instant max_t))
                         (Z.max (instant req_s) (instant min_t)));
      destruct (Z.ltb_spec (Z.max (instant req_s) (instant min_t))
                           (Z.min (instant req_e) (instant max_t)));
      simpl; try reflexivity; lia. }
  split.
  { unfold validation_error.
    rewrite Z.geb_leb, py_max_instant, py_min_instant.
    destruct (Z.leb_spec (Z.min (instant req_e) (instant max_t))
                         (Z.max (instant req_s) (instant min_t)));
      split; intros; try discriminate; try reflexivity; lia. }
  vm_compute. repeat split.
Qed.

End Window.

(** ** The chart window *)

Section ChartWindow.

Import App.

(** C5 (as stated, refuted). With the window from midnight to noon, a row
    stamped exactly at the end instant stays in the chart subset. *)
Lemma chart_window_keeps_end_row :
  instant (timestamp row_at_noon) = instant noon
  /\ chart_df [row_at_noon] (cet 2024 1 5 0 0) noon = [row_at_noon].
Proof. split; reflexivity. Qed.

(** C5 (amended). The applied chart window is closed on both sides: a row of
    the frame is in the chart subset exactly when its timestamp is at or
    after the start instant and at or before the end instant; the subset
    keeps the frame's order. *)
Theorem chart_window_closed (df : DataFrame) (s e : Timestamp) (r : row) :
  (In r (chart_df df s e)
   <-> In r df
       /\ instant s <= instant (timestamp r) <= instant e)
  /\ chart_df df s e
     = filter (fun r => negb (instant (timestamp r) <? instant s)
                        && negb (instant e <? instant (timestamp r))) df.
Proof.
  split.
  - unfold chart_df. rewrite filter_In, andb_true_iff, !Z.leb_le. tauto.
  - unfold chart_df. apply filter_ext. intros a.
    rewrite !Z.ltb_antisym, !negb_involutive. reflexivity.
Qed.

End ChartWindow.

(** ** Colour assignment *)

Section Colours.

Import Charts.

Lemma palette_length : List.length MAGENTA_PALETTE = 10%nat.
Proof. reflexivity. Qed.

Lemma palette_NoDup : NoDup MAGENTA_PALETTE.
Proof.
  unfold MAGENTA_PALETTE.
  repeat (constructor; [simpl; intuition discriminate|]). constructor.
Qed.

Lemma scale_range_length (endpoints : list string) :
  List.length (range (_get_endpoint_color_scale endpoints))
  = List.length endpoints.
Proof.
  unfold _get_endpoint_color_scale. cbn [range].
  destruct (Nat.leb_spec (List.length endpoints) (List.length MAGENTA_PALETTE)).
  - rewrite length_firstn. lia.
  - rewrite length_map, length_seq. reflexivity.
Qed.

Lemma scale_range_nth (endpoints : list string) (i : nat) :
  (i < List.length endpoints)%nat ->
  nth_error (range (_get_endpoint_color_scale endpoints)) i
  = nth_error MAGENTA_PALETTE (i mod 10).
Proof.
  intros Hi. unfold _get_endpoint_color_scale. cbn [range].
  destruct (Nat.leb_spec (List.length endpoints) (List.length MAGENTA_PALETTE))
    as [Hle|Hgt].
  - rewrite palette_length in Hle.
    rewrite nth_error_firstn.
    destruct (Nat.ltb_spec i (List.length endpoints)); [|lia].
    rewrite Nat.mod_small by lia. reflexivity.
  - rewrite nth_error_map, nth_error_seq.
    destruct (Nat.ltb_spec i (List.length endpoints)); [|lia].
    cbn [option_map Nat.add]. rewrite palette_length.
    symmetry. apply nth_error_nth'.
    rewrite palette_length. apply Nat.mod_upper_bound. lia.
Qed.

Lemma lookup_nth (dom rng : list string) :
  NoDup dom ->
  forall i l, nth_error dom i = Some l -> lookup dom rng l = nth_error rng i.
Proof.
  intros Hnd. revert rng.
  induction Hnd as [|d dom Hnotin Hnd IH]; intros rng i l Hi.
  - destruct i; discriminate.
  - destruct i as [|i]; simpl in Hi.
    + injection Hi as ->. destruct rng; simpl; [reflexivity|].
      rewrite String.eqb_refl. reflexivity.
    + assert (Hne : d <> l).
      { intros ->. apply Hnotin. eapply nth_error_In; eauto. }
      apply String.eqb_neq in Hne.
      destruct rng as [|c rng]; simpl.
      * reflexivity.
      * rewrite Hne. apply IH. exact Hi.
Qed.

(** C10. For an ordered list of distinct labels the colour scale has the
    labels as its domain and gives the label at index [i] the palette colour
    at index [i mod 10].  The scale is a function of the list (the same
    labels in the same order give the same scale); up to ten labels get
    pairwise different colours, the palette's first entries in order; with
    twelve labels the label at index 10 gets the colour of the label at
    index 0. *)
Theorem color_assigner_cycles (endpoints : list string)
  (Hdistinct : NoDup endpoints) :
  let scale := _get_endpoint_color_scale endpoints in
  domain scale = endpoints
  /\ (forall i l, nth_error endpoints i = Some l ->
        color_of scale l = nth_error MAGENTA_PALETTE (i mod 10)
        /\ nth_error (range scale) i = nth_error MAGENTA_PALETTE (i mod 10))
  /\ ((List.length endpoints <= 10)%nat ->
        range scale = firstn (List.length endpoints) MAGENTA_PALETTE
        /\ NoDup (range scale))
  /\ (List.length endpoints = 12%nat ->
        forall l0 l10, nth_error endpoints 0 = Some l0 ->
                       nth_error endpoints 10 = Some l10 ->
                       color_of scale l10 = color_of scale l0
                       /\ color_of scale l0 = Some "#f8bbd9"%string).
Proof.
  cbv zeta.
  assert (Hcol : forall i l, nth_error endpoints i = Some l ->
            color_of (_get_endpoint_color_scale endpoints) l
            = nth_error MAGENTA_PALETTE (i mod 10)
            /\ nth_error (range (_get_endpoint_color_scale endpoints)) i
               = nth_error MAGENTA_PALETTE (i mod 10)).
  { intros i l Hi.
    assert (Hlt : (i < List.length endpoints)%nat).
    { apply nth_error_Some. congruence. }
    split; [|apply scale_range_nth; exact Hlt].
    unfold color_of. simpl domain.
    rewrite (lookup_nth endpoints _ Hdistinct i l Hi).
    apply scale_range_nth; exact Hlt. }
  split; [reflexivity|]. split; [exact Hcol|]. split.
  - intros Hle.
    assert (Hr : range (_get_endpoint_color_scale endpoints)
                 = firstn (List.length endpoints) MAGENTA_PALETTE).
    { unfold _get_endpoint_color_scale. cbn [range].
      destruct (Nat.leb_spec (List.length endpoints)
                             (List.length MAGENTA_PALETTE)) as [_|Hgt];
        [reflexivity|].
      rewrite palette_length in Hgt. lia. }
    split; [exact Hr|]. rewrite Hr.
    pose proof palette_NoDup as Hnd.
    rewrite <- (firstn_skipn (List.length endpoints) MAGENTA_PALETTE) in Hnd.
    apply NoDup_app_remove_r in Hnd. exact Hnd.
  - intros H12 l0 l10 H0 H10.
    destruct (Hcol _ _ H0) as [E0 _]. destruct (Hcol _ _ H10) as [E10 _].
    rewrite E0, E10. split; reflexivity.
Qed.

End Colours.

Lemma labels12_NoDup : NoDup labels12.
Proof.
  unfold labels12.
  repeat (constructor; [simpl; intuition discriminate|]). constructor.
Defined.

Lemma color_assigner_cycles_witness :
  NoDup labels12
  /\ Charts.color_of (Charts._get_endpoint_color_scale labels12) "k"
     = Charts.color_of (Charts._get_endpoint_color_scale labels12) "a".
Proof.
  split; [exact labels12_NoDup|].
  destruct (color_assigner_cycles labels12 labels12_NoDup)
    as (_ & _ & _ & H12).
  destruct (H12 eq_refl "a"%string "k"%string eq_refl eq_refl) as [E _].
  exact E.
Defined.

(** ** Hour coverage *)

Section Coverage.

Import Charts.

Lemma hour_range (t : Timestamp) : 0 <= hour t < 24.
Proof. unfold hour. apply Z.mod_pos_bound. lia. Qed.

Lemma hour_in_all_hours (t : Timestamp) : In (hour t) all_hours.
Proof.
  unfold all_hours. apply in_map_iff. exists (Z.to_nat (hour t)).
  pose proof (hour_range t). split; [lia|]. apply in_seq. lia.
Qed.

Lemma present_hours_bound (df : DataFrame) :
  (List.length (present_hours df) <= 24)%nat.
Proof.
  change 24%nat with (List.length all_hours).
  apply NoDup_incl_length.
  - apply NoDup_nodup.
  - intros h Hh. apply nodup_In in Hh. apply in_map_iff in Hh.
    destruct Hh as (r & <- & _). apply hour_in_all_hours.
Qed.

(** C4. The missing-hour count and the number of distinct hours of day
    present in the input always add up to 24; the count lies between 0 and
    24, every present hour is one of 0..23, and on an empty input the count
    is 24. *)
Theorem missing_hours_complement (df : DataFrame) :
  missing_hours df + Z.of_nat (List.length (present_hours df)) = 24
  /\ 0 <= missing_hours df <= 24
  /\ NoDup (present_hours df)
  /\ (forall h, In h (present_hours df)
                <-> exists r, In r df /\ hour (timestamp r) = h)
  /\ (forall h, In h (present_hours df) -> 0 <= h < 24)
  /\ missing_hours [] = 24.
Proof.
  assert (Hin : forall h, In h (present_hours df)
                  <-> exists r, In r df /\ hour (timestamp r) = h).
  { intros h. unfold present_hours. rewrite nodup_In, in_map_iff.
    split; intros (r & A & B); exists r; auto. }
  pose proof (present_hours_bound df) as Hb.
  assert (Hm : missing_hours df
               = 24 - Z.of_nat (List.length (present_hours df))).
  { destruct df; reflexivity. }
  repeat split; try (rewrite Hm; lia); try apply Hin.
  - apply NoDup_nodup.
  - apply Hin in H. destruct H as (r & _ & <-). apply hour_range.
  - apply Hin in H. destruct H as (r & _ & <-). apply hour_range.
Qed.

End Coverage.

(** ** Endpoint labels *)

Section Canonicalizer.

Import Charts.
Local Open Scope string_scope.

Lemma take_until_split (stop : ascii -> bool) (s : string) :
  exists rest,
    s = Url.take_until stop s ++ rest
    /\ (rest = "" \/ exists c r, rest = String c r /\ stop c = true)
    /\ Url.forallb (fun c => negb (stop c)) (Url.take_until stop s) = true.
Proof.
  induction s as [|c s IH]; simpl.
  - exists "". auto.
  - destruct (stop c) eqn:E.
    + exists (String c s). simpl. split; [reflexivity|]. split; eauto.
    + destruct IH as (rest & H1 & H2 & H3). exists rest. simpl.
      rewrite E, H3. split; [congruence|]. auto.
Qed.

Lemma take_until_none (stop : ascii -> bool) (s : string) :
  Url.forallb (fun c => negb (stop c)) s = true -> Url.take_until stop s = s.
Proof.
  induction s as [|c s IH]; simpl; [reflexivity|].
  intros H. apply andb_true_iff in H. destruct H as [H1 H2].
  apply negb_true_iff in H1. rewrite H1, IH; auto.
Qed.

(** C9 (as stated, refuted). A raw endpoint without a scheme has no network
    location, yet the result is its first dot-separated segment, not the raw
    string. *)
Lemma shorten_without_host_is_not_identity :
  Url.urlparse_netloc accept_all accept_all "speed.example.com" = Some ""
  /\ _shorten_endpoint accept_all accept_all "speed.example.com" = "speed".
Proof. split; reflexivity. Qed.

(** C9 (amended). The Endpoint Canonicalizer is a total function on
    strings.  When the parser raises, the raw string is returned.  Otherwise
    the label is cut from the network location when the URL has one, and
    from the raw string itself when it has none: the label is the part
    before the first dot, and the raw string is returned when that part is
    empty.  So a raw string without host and without dot is returned
    unchanged.  The three examples of the specification hold. *)
Theorem shorten_endpoint_cases (bracketed_ok nfkc_ok : string -> bool)
  (url : string) :
  let parse := Url.urlparse_netloc bracketed_ok nfkc_ok in
  let shorten := _shorten_endpoint bracketed_ok nfkc_ok in
  (parse url = None -> shorten url = url)
  /\ (forall netloc, parse url = Some netloc -> netloc <> "" ->
        first_part_of netloc <> "" -> shorten url = first_part_of netloc)
  /\ (forall netloc, parse url = Some netloc -> netloc <> "" ->
        first_part_of netloc = "" -> shorten url = url)
  /\ (parse url = Some "" -> first_part_of url <> "" ->
        shorten url = first_part_of url)
  /\ (parse url = Some "" -> first_part_of url = "" -> shorten url = url)
  /\ (parse url = Some "" ->
        Url.forallb (fun c => negb (Ascii.eqb "."%char c)) url = true ->
        shorten url = url)
  /\ (forall h, exists rest,
        h = first_part_of h ++ rest
        /\ (rest = "" \/ exists r, rest = String "."%char r)
        /\ Url.contains "."%char (first_part_of h) = false)
  /\ shorten "https://custom-t0.speed.example.com" = "custom-t0"
  /\ shorten "not a url" = "not a url"
  /\ shorten "" = "".
Proof.
  cbv zeta. unfold _shorten_endpoint.
  split. { intros ->. reflexivity. }
  split.
  { intros n -> Hn Hf. apply String.eqb_neq in Hn, Hf. rewrite Hn, Hf.
    reflexivity. }
  split.
  { intros n -> Hn Hf. apply String.eqb_neq in Hn. rewrite Hn, Hf.
    reflexivity. }
  split.
  { intros -> Hf. apply String.eqb_neq in Hf. simpl. rewrite Hf.
    reflexivity. }
  split. { intros -> Hf. simpl. rewrite Hf. reflexivity. }
  split.
  { intros -> Hd. simpl. unfold first_part_of.
    rewrite (take_until_none _ _ Hd). destruct (url =? "")%string eqn:E.
    - reflexivity.
    - reflexivity. }
  split.
  { intros h. unfold first_part_of.
    destruct (take_until_split (Ascii.eqb "."%char) h)
      as (rest & H1 & H2 & H3).
    exists rest. split; [exact H1|]. split.
    - destruct H2 as [->|(c & r & -> & Hc)]; [auto|].
      right. exists r. apply Ascii.eqb_eq in Hc. subst c. reflexivity.
    - clear H1 H2. revert H3.
      generalize (Url.take_until (Ascii.eqb "."%char) h). intros t.
      unfold Url.contains.
      induction t as [|c t IH]; cbn [Url.forallb Url.find];
        [reflexivity|].
      intros H. apply andb_true_iff in H. destruct H as [Hc Ht].
      apply negb_true_iff in Hc. rewrite Ascii.eqb_sym in Hc. rewrite Hc.
      specialize (IH Ht). destruct (Url.find "."%char t); [discriminate|].
      reflexivity. }
  repeat split.
Qed.

Lemma shorten_endpoint_cases_witness :
  Url.urlparse_netloc accept_all accept_all "speed.example.com" = Some ""
  /\ first_part_of "speed.example.com" <> ""
  /\ _shorten_endpoint accept_all accept_all "speed.example.com"
     = first_part_of "speed.example.com".
Proof.
  assert (P : Url.urlparse_netloc accept_all accept_all "speed.example.com"
              = Some "") by reflexivity.
  assert (F : first_part_of "speed.example.com" <> "") by discriminate.
  split; [exact P|]. split; [exact F|].
  destruct (shorten_endpoint_cases accept_all accept_all "speed.example.com")
    as (_ & _ & _ & H & _).
  exact (H P F).
Defined.

End Canonicalizer.

(** ** Grouping *)

Section KeyOrder.

Import Frame.

Context {K : Type} (cmp : K -> K -> comparison).
Hypothesis cmp_eq : forall a b, cmp a b = Eq <-> a = b.
Hypothesis cmp_antisym : forall a b, cmp a b = CompOpp (cmp b a).
Hypothesis cmp_trans :
  forall a b c, cmp a b = Lt -> cmp b c = Lt -> cmp a c = Lt.

Lemma insert_key_In (k0 : K) (ks : list K) (k : K) :
  In k (insert_key cmp k0 ks) <-> k = k0 \/ In k ks.
Proof.
  induction ks as [|k' ks IH]; simpl.
  - intuition.
  - destruct (cmp k0 k') eqn:E; simpl.
    + apply cmp_eq in E. subst k'. intuition.
    + intuition.
    + rewrite IH. intuition.
Qed.

Lemma unique_sorted_In (l : list K) (k : K) :
  In k (unique_sorted cmp l) <-> In k l.
Proof.
  induction l as [|a l IH]; simpl; [tauto|].
  rewrite insert_key_In, IH. intuition.
Qed.

Lemma insert_key_sorted (k : K) (ks : list K) :
  StronglySorted (key_lt cmp) ks ->
  StronglySorted (key_lt cmp) (insert_key cmp k ks).
Proof.
  induction 1 as [|k' ks Hs IH Hall]; simpl.
  - repeat constructor.
  - destruct (cmp k k') eqn:E.
    + constructor; assumption.
    + constructor; [constructor; assumption|].
      constructor; [exact E|].
      rewrite Forall_forall in *. intros x Hx.
      unfold key_lt. eapply cmp_trans; [exact E|]. apply Hall, Hx.
    + constructor; [exact IH|].
      rewrite Forall_forall in *. intros x Hx.
      apply insert_key_In in Hx. destruct Hx as [->|Hx].
      * unfold key_lt. rewrite cmp_antisym, E. reflexivity.
      * apply Hall, Hx.
Qed.

Lemma unique_sorted_sorted (l : list K) :
  StronglySorted (key_lt cmp) (unique_sorted cmp l).
Proof.
  induction l as [|a l IH]; simpl; [constructor|].
  apply insert_key_sorted, IH.
Qed.

Lemma sorted_keys_NoDup (ks : list K) :
  StronglySorted (key_lt cmp) ks -> NoDup ks.
Proof.
  induction 1 as [|k ks Hs IH Hall]; constructor; [|exact IH].
  intros Hin. rewrite Forall_forall in Hall. specialize (Hall _ Hin).
  unfold key_lt in Hall.
  assert (E : cmp k k = Eq) by (apply cmp_eq; reflexivity). congruence.
Qed.

Lemma unique_sorted_NoDup (l : list K) : NoDup (unique_sorted cmp l).
Proof. apply sorted_keys_NoDup, unique_sorted_sorted. Qed.

Lemma groupby_keys (key : row -> K) (df : DataFrame) :
  map fst (groupby cmp key df) = unique_sorted cmp (map key df).
Proof.
  unfold groupby. rewrite map_map. simpl. apply map_id.
Qed.

Lemma groupby_In (key : row -> K) (df : DataFrame) (k : K) (g : list row) :
  In (k, g) (groupby cmp key df) ->
  g = filter (fun r => same_key cmp (key r) k) df
  /\ (forall r, In r g <-> In r df /\ key r = k)
  /\ g <> [].
Proof.
  unfold groupby. intros H. apply in_map_iff in H.
  destruct H as (k' & E & Hk). injection E as -> <-.
  assert (Hm : forall r, In r (filter (fun r => same_key cmp (key r) k) df)
                 <-> In r df /\ key r = k).
  { intros r. rewrite filter_In. unfold same_key.
    destruct (cmp (key r) k) eqn:E.
    - apply cmp_eq in E. intuition.
    - split; [intros [_ ?]; discriminate|].
      intros [_ ?]. subst k.
      assert (cmp (key r) (key r) = Eq) by (apply cmp_eq; reflexivity).
      congruence.
    - split; [intros [_ ?]; discriminate|].
      intros [_ ?]. subst k.
      assert (cmp (key r) (key r) = Eq) by (apply cmp_eq; reflexivity).
      congruence. }
  split; [reflexivity|]. split; [exact Hm|].
  pose proof (proj1 (unique_sorted_In _ _) Hk) as Hk'.
  apply in_map_iff in Hk'. destruct Hk' as (r & Hr & Hin).
  intros Hnil. assert (Hg : In r (filter (fun r => same_key cmp (key r) k) df)).
  { apply Hm. auto. }
  rewrite Hnil in Hg. exact Hg.
Qed.

End KeyOrder.

Lemma Z_compare_trans (a b c : Z) :
  (a ?= b) = Lt -> (b ?= c) = Lt -> (a ?= c) = Lt.
Proof. rewrite !Z.compare_lt_iff. lia. Qed.

Lemma Z_compare_antisym (a b : Z) : (a ?= b) = CompOpp (b ?= a).
Proof. apply Z.compare_antisym. Qed.

Lemma ascii_compare_refl (a : ascii) : Ascii.compare a a = Eq.
Proof. unfold Ascii.compare. apply N.compare_refl. Qed.

Lemma ascii_compare_trans (a b c : ascii) :
  Ascii.compare a b = Lt -> Ascii.compare b c = Lt -> Ascii.compare a c = Lt.
Proof. unfold Ascii.compare. rewrite !N.compare_lt_iff. lia. Qed.

Lemma string_compare_refl (s : string) : String.compare s s = Eq.
Proof.
  induction s as [|c s IH]; simpl; [reflexivity|].
  rewrite ascii_compare_refl. exact IH.
Qed.

Lemma string_compare_eq (a b : string) : String.compare a b = Eq <-> a = b.
Proof.
  split; [apply String.compare_eq_iff|]. intros ->. apply string_compare_refl.
Qed.

Lemma string_compare_trans (a b c : string) :
  String.compare a b = Lt -> String.compare b c = Lt ->
  String.compare a c = Lt.
Proof.
  revert b c. induction a as [|x a IH]; intros [|y b] [|z c]; simpl;
    try discriminate; try reflexivity.
  destruct (Ascii.compare x y) eqn:Exy; try discriminate;
    destruct (Ascii.compare y z) eqn:Eyz; try discriminate; intros H1 H2.
  - apply Ascii.compare_eq_iff in Exy, Eyz. subst.
    rewrite ascii_compare_refl. eapply IH; eauto.
  - apply Ascii.compare_eq_iff in Exy. subst. rewrite Eyz. reflexivity.
  - apply Ascii.compare_eq_iff in Eyz. subst. rewrite Exy. reflexivity.
  - rewrite (ascii_compare_trans _ _ _ Exy Eyz). reflexivity.
Qed.

Lemma cmp_pair_eq (a b : Z * string) : Frame.cmp_pair a b = Eq <-> a = b.
Proof.
  destruct a as [t e], b as [t' e']. unfold Frame.cmp_pair. simpl.
  destruct (t ?= t') eqn:E.
  - apply Z.compare_eq_iff in E. subst. rewrite string_compare_eq.
    split; congruence.
  - split; [discriminate|]. intros H. injection H as -> ->.
    rewrite Z.compare_refl in E. discriminate.
  - split; [discriminate|]. intros H. injection H as -> ->.
    rewrite Z.compare_refl in E. discriminate.
Qed.

Lemma cmp_pair_antisym (a b : Z * string) :
  Frame.cmp_pair a b = CompOpp (Frame.cmp_pair b a).
Proof.
  destruct a as [t e], b as [t' e']. unfold Frame.cmp_pair. simpl.
  rewrite (Z.compare_antisym t' t).
  destruct (t' ?= t); simpl; try reflexivity. apply String.compare_antisym.
Qed.

Lemma cmp_pair_trans (a b c : Z * string) :
  Frame.cmp_pair a b = Lt -> Frame.cmp_pair b c = Lt ->
  Frame.cmp_pair a c = Lt.
Proof.
  destruct a as [t1 e1], b as [t2 e2], c as [t3 e3].
  unfold Frame.cmp_pair. simpl.
  destruct (t1 ?= t2) eqn:E12; try discriminate;
    destruct (t2 ?= t3) eqn:E23; try discriminate; intros H1 H2.
  - apply Z.compare_eq_iff in E12, E23. subst. rewrite Z.compare_refl.
    eapply string_compare_trans; eauto.
  - apply Z.compare_eq_iff in E12. subst. rewrite E23. reflexivity.
  - apply Z.compare_eq_iff in E23. subst. rewrite E12. reflexivity.
  - rewrite (Z_compare_trans _ _ _ E12 E23). reflexivity.
Qed.

(** ** Bucket statistics and endpoint series *)

Section Aggregators.

Import Frame Charts.

Lemma same_key_Z (a b : Z) : same_key Z.compare a b = (a =? b)%Z.
Proof.
  unfold same_key. destruct (Z.eqb_spec a b) as [->|Hne].
  - rewrite Z.compare_refl. reflexivity.
  - destruct (a ?= b) eqn:E; try reflexivity.
    apply Z.compare_eq_iff in E. contradiction.
Qed.

Lemma same_key_pair (a b : Z * string) :
  same_key cmp_pair a b = (fst a =? fst b)%Z && (snd a =? snd b)%string.
Proof.
  unfold same_key. destruct a as [t e], b as [t' e']. simpl.
  destruct (cmp_pair (t, e) (t', e')) eqn:E.
  - apply cmp_pair_eq in E. injection E as -> ->.
    rewrite Z.eqb_refl, String.eqb_refl. reflexivity.
  - destruct (Z.eqb_spec t t') as [->|]; [|reflexivity].
    destruct (String.eqb_spec e e') as [->|]; [|reflexivity].
    assert (X : cmp_pair (t', e') (t', e') = Eq) by (apply cmp_pair_eq; auto).
    congruence.
  - destruct (Z.eqb_spec t t') as [->|]; [|reflexivity].
    destruct (String.eqb_spec e e') as [->|]; [|reflexivity].
    assert (X : cmp_pair (t', e') (t', e') = Eq) by (apply cmp_pair_eq; auto).
    congruence.
Qed.

(** The values of the selected metric in the bucket [k]. *)
Lemma agg_rows (key : row -> Z) (m : Metric)
  (spec : list (string * (list cell -> cell))) (df : DataFrame) :
  let stats := agg m spec (groupby Z.compare key df) in
  NoDup (map fst stats)
  /\ (forall k, In k (map fst stats) <-> exists r, In r df /\ key r = k)
  /\ Forall (fun ks =>
               let xs := map (column m)
                             (filter (fun r => (key r =? fst ks)%Z) df) in
               xs <> []
               /\ snd ks = map (fun na => (fst na, snd na xs)) spec) stats.
Proof.
  cbv zeta.
  assert (Hk : map fst (agg m spec (groupby Z.compare key df))
               = unique_sorted Z.compare (map key df)).
  { unfold agg. rewrite map_map. simpl.
    rewrite <- (groupby_keys Z.compare key df). reflexivity. }
  split.
  { rewrite Hk.
    apply (unique_sorted_NoDup Z.compare Z.compare_eq_iff Z_compare_antisym
             Z_compare_trans). }
  split.
  { intros k. rewrite Hk.
    rewrite (unique_sorted_In Z.compare Z.compare_eq_iff), in_map_iff.
    split; intros (r & A & B); exists r; auto. }
  unfold agg. apply Forall_forall. intros [k s] Hin.
  apply in_map_iff in Hin. destruct Hin as ([k' g] & E & Hg).
  simpl in E. injection E as -> <-. simpl.
  destruct (groupby_In Z.compare Z.compare_eq_iff key df k g Hg)
    as (Eg & _ & Hne).
  assert (Ef : g = filter (fun r => (key r =? k)%Z) df).
  { rewrite Eg. apply filter_ext. intros r. apply same_key_Z. }
  rewrite <- Ef. split; [|reflexivity].
  destruct g; [contradiction|discriminate].
Qed.

(** C6 (as stated, refuted). For a frame of one row the record of the
    Interval Aggregator has the three quantile fields and no count. *)
Lemma interval_stats_lack_count :
  match create_median_band_chart [row_at_noon] Download with
  | Layers [(t, s)] =>
      t = instant noon
      /\ map fst s = ["median"%string; "q25"%string; "q75"%string]
      /\ Series_get s "count"%string = None
  | _ => False
  end.
Proof. vm_compute. repeat split. Qed.

(** C6 (amended). For a non-empty input the Interval Aggregator yields one
    record per distinct timestamp, with exactly the fields median, q25 and
    q75 computed over the bucket's rows; it has no count field.  The Diurnal
    Aggregator yields one record per hour of day present, with the same
    three fields and a fourth, count: the number of rows of the bucket whose
    metric value is present.  On an empty input both give the placeholder. *)
Theorem interval_stats_fields (df : DataFrame) (m : Metric) :
  match create_median_band_chart df m with
  | NoData => df = []
  | Layers stats =>
      df <> []
      /\ NoDup (map fst stats)
      /\ (forall t, In t (map fst stats)
                    <-> exists r, In r df /\ instant (timestamp r) = t)
      /\ Forall (fun ks =>
           let xs := map (column m)
                       (filter (fun r => (instant (timestamp r) =? fst ks)%Z) df)
           in
           xs <> []
           /\ snd ks = [ ("median"%string, median xs);
                         ("q25"%string, quantile q25 xs);
                         ("q75"%string, quantile q75 xs) ]
           /\ Series_get (snd ks) "count"%string = None) stats
  end
  /\ match create_24h_median_band_chart df m with
     | NoData => df = []
     | Layers stats =>
         df <> []
         /\ NoDup (map fst stats)
         /\ (forall h, In h (map fst stats)
                       <-> exists r, In r df /\ hour (timestamp r) = h)
         /\ Forall (fun ks =>
              let xs := map (column m)
                          (filter (fun r => (hour (timestamp r) =? fst ks)%Z) df)
              in
              xs <> []
              /\ snd ks = [ ("median"%string, median xs);
                            ("q25"%string, quantile q25 xs);
                            ("q75"%string, quantile q75 xs);
                            ("count"%string, count xs) ]
              /\ Series_get (snd ks) "count"%string
                 = Some (Some (of_nat (List.length (dropna xs))))) stats
     end.
Proof.
  split.
  - destruct df as [|r0 df']; [reflexivity|].
    unfold create_median_band_chart.
    set (df := r0 :: df').
    destruct (agg_rows (fun r => instant (timestamp r)) m
                [ ("median"%string, median); ("q25"%string, quantile q25);
                  ("q75"%string, quantile q75) ] df) as (H1 & H2 & H3).
    split; [discriminate|]. split; [exact H1|]. split; [exact H2|].
    eapply Forall_impl; [|exact H3]. intros [k s]. cbv zeta. simpl fst.
    simpl snd. intros [Hne ->]. split; [exact Hne|]. split; reflexivity.
  - destruct df as [|r0 df']; [reflexivity|].
    unfold create_24h_median_band_chart.
    set (df := r0 :: df').
    destruct (agg_rows (fun r => hour (timestamp r)) m
                [ ("median"%string, median); ("q25"%string, quantile q25);
                  ("q75"%string, quantile q75); ("count"%string, count) ] df)
      as (H1 & H2 & H3).
    split; [discriminate|]. split; [exact H1|]. split; [exact H2|].
    eapply Forall_impl; [|exact H3]. intros [k s]. cbv zeta. simpl fst.
    simpl snd. intros [Hne ->]. split; [exact Hne|]. split; reflexivity.
Qed.

(** C7 (as stated, refuted). Two rows of one bucket whose raw endpoints
    differ and shorten to the same label give two series points with that
    bucket and label, one per raw endpoint, not one point with their mean. *)
Lemma two_raw_endpoints_two_points :
  match create_endpoint_lines_chart accept_all accept_all two_hosts Download
  with
  | Layers (points, scale) =>
      map (fun p => (bucket p, label p, option_map Qred (value p))) points
      = [ (instant noon, "custom-t0"%string, Some 10%Q);
          (instant noon, "custom-t0"%string, Some 30%Q) ]
      /\ domain scale = ["custom-t0"%string]
  | NoData => False
  end.
Proof. vm_compute. split; reflexivity. Qed.

(** C7 (amended). In the per-bucket-per-endpoint projection rows are grouped
    by (bucket, raw endpoint) and the endpoint is shortened after grouping:
    the output holds exactly one series point for every distinct pair of
    bucket and raw endpoint that occurs in the input, in ascending order of
    the pair; the point carries the bucket, the shortened endpoint, and the
    arithmetic mean of the selected metric over the rows with that bucket
    and that raw endpoint.  Both charts (bucket = timestamp, bucket = hour
    of day) are built this way. *)
Theorem endpoint_points_per_raw_endpoint
  (bracketed_ok nfkc_ok : string -> bool) (bucket_of : Timestamp -> Z)
  (df : DataFrame) (m : Metric) :
  let key := fun r => (bucket_of (timestamp r), endpoint r) in
  let keys := unique_sorted cmp_pair (map key df) in
  NoDup keys
  /\ StronglySorted (key_lt cmp_pair) keys
  /\ (forall b e, In (b, e) keys
                  <-> exists r, In r df /\ bucket_of (timestamp r) = b
                                /\ endpoint r = e)
  /\ grouped_df bracketed_ok nfkc_ok bucket_of df m
     = map (fun k =>
              mkPoint (fst k) (_shorten_endpoint bracketed_ok nfkc_ok (snd k))
                (mean (map (column m)
                         (filter (fun r =>
                                    (bucket_of (timestamp r) =? fst k)%Z
                                    && (endpoint r =? snd k)%string) df))))
           keys
  /\ create_endpoint_lines_chart bracketed_ok nfkc_ok
     = endpoint_lines bracketed_ok nfkc_ok instant
  /\ create_24h_endpoint_lines_chart bracketed_ok nfkc_ok
     = endpoint_lines bracketed_ok nfkc_ok hour
  /\ endpoint_lines bracketed_ok nfkc_ok bucket_of df m
     = match df with
       | [] => NoData
       | _ =>
           let g := grouped_df bracketed_ok nfkc_ok bucket_of df m in
           Layers (g, _get_endpoint_color_scale (endpoints_of g))
       end.
Proof.
  cbv zeta. split.
  { apply (unique_sorted_NoDup cmp_pair cmp_pair_eq cmp_pair_antisym
             cmp_pair_trans). }
  split.
  { apply (unique_sorted_sorted cmp_pair cmp_pair_eq cmp_pair_antisym
             cmp_pair_trans). }
  split.
  { intros b e. rewrite (unique_sorted_In cmp_pair cmp_pair_eq), in_map_iff.
    split.
    - intros (r & E & Hr). injection E as <- <-. exists r. auto.
    - intros (r & Hr & <- & <-). exists r. auto. }
  split.
  { unfold grouped_df, groupby. rewrite map_map. apply map_ext.
    intros k. simpl. f_equal. f_equal. f_equal. apply filter_ext.
    intros r. rewrite same_key_pair. reflexivity. }
  repeat split.
Qed.

End Aggregators.

(** ** The latest test run *)

Section RunSummarizer.

Import Frame Components.

Lemma insert_row_perm (r : row) (l : list row) :
  Permutation (r :: l) (insert_row r l).
Proof.
  induction l as [|r' l IH]; simpl; [reflexivity|].
  destruct (instant (timestamp r) <=? instant (timestamp r')).
  - reflexivity.
  - rewrite perm_swap. constructor. exact IH.
Qed.

Lemma sort_values_perm (df : DataFrame) : Permutation df (sort_values df).
Proof.
  induction df as [|r df IH]; simpl; [constructor|].
  rewrite <- insert_row_perm. constructor. exact IH.
Qed.

Lemma insert_row_sorted (r : row) (l : list row) :
  StronglySorted ts_le l -> StronglySorted ts_le (insert_row r l).
Proof.
  induction 1 as [|r' l Hs IH Hall]; simpl.
  - repeat constructor.
  - destruct (Z.leb_spec (instant (timestamp r)) (instant (timestamp r'))).
    + constructor; [constructor; assumption|].
      constructor; [exact H|].
      rewrite Forall_forall in *. intros x Hx. specialize (Hall x Hx).
      unfold ts_le in *. lia.
    + constructor; [exact IH|].
      rewrite Forall_forall in *. intros x Hx.
      apply (Permutation_in _ (Permutation_sym (insert_row_perm r l))) in Hx.
      destruct Hx as [<-|Hx]; [unfold ts_le; lia|]. apply Hall, Hx.
Qed.

Lemma sort_values_sorted (df : DataFrame) :
  StronglySorted ts_le (sort_values df).
Proof.
  induction df as [|r df IH]; simpl; [constructor|].
  apply insert_row_sorted, IH.
Qed.

Lemma sort_values_length (df : DataFrame) :
  List.length (sort_values df) = List.length df.
Proof. symmetry. apply Permutation_length, sort_values_perm. Qed.

(** [l[-n:]] is the list of the last [n] elements. *)
Lemma slice_last {A} (l : list A) (n : Z) :
  1 <= n <= Z.of_nat (List.length l) ->
  Py.slice (Some (- n)) None l
  = skipn (List.length l - Z.to_nat n) l.
Proof.
  intros Hn. unfold Py.slice, Py.adjust.
  destruct (Z.ltb_spec (- n) 0); [|lia].
  replace (Z.to_nat (Z.max 0 (- n + Z.of_nat (List.length l))))
    with (List.length l - Z.to_nat n)%nat by lia.
  apply firstn_all2. rewrite length_skipn. lia.
Qed.

(** [l[-2n:-n]] is the list of the [n] elements before the last [n]. *)
Lemma slice_before_last {A} (l : list A) (n : Z) :
  1 <= n -> 2 * n <= Z.of_nat (List.length l) ->
  Py.slice (Some (- (n * 2))) (Some (- n)) l
  = firstn (Z.to_nat n) (skipn (List.length l - 2 * Z.to_nat n) l).
Proof.
  intros Hn H2. unfold Py.slice, Py.adjust.
  destruct (Z.ltb_spec (- (n * 2)) 0); [|lia].
  destruct (Z.ltb_spec (- n) 0); [|lia].
  f_equal; [|f_equal]; lia.
Qed.

Lemma max_timestamp_spec (l : list Timestamp) :
  l <> [] ->
  exists t, max_timestamp l = Some t /\ In t l
            /\ Forall (fun u => instant u <= instant t) l.
Proof.
  induction l as [|a l IH]; [contradiction|]. intros _.
  destruct l as [|b l'].
  - exists a. simpl. repeat split; auto. repeat constructor. lia.
  - destruct IH as (m & Hm & Hin & Hall); [discriminate|].
    change (max_timestamp (a :: b :: l'))
      with (match max_timestamp (b :: l') with
            | None => Some a
            | Some m => Some (Py.max instant a m)
            end).
    rewrite Hm. exists (Py.max instant a m). split; [reflexivity|].
    unfold Py.max. destruct (Z.ltb_spec (instant a) (instant m)).
    + split; [right; exact Hin|]. constructor; [lia|exact Hall].
    + split; [left; reflexivity|]. constructor; [lia|].
      eapply Forall_impl; [|exact Hall]. simpl. intros; lia.
Qed.

Lemma render_latest_summary_some (df : DataFrame) (N : Z) :
  df <> [] ->
  exists s, render_latest_summary df N = Some s
    /\ df_sorted s = sort_values df
    /\ run_size s = Z.min (Z.max N 1) (Z.of_nat (List.length df))
    /\ latest_run s = Py.slice (Some (- run_size s)) None (df_sorted s)
    /\ latest s = mean_numeric (latest_run s)
    /\ latest_timestamp s = max_timestamp (map timestamp (latest_run s))
    /\ previous_run s
       = (if Z.of_nat (List.length df) >=? run_size s * 2
          then Py.slice (Some (- (run_size s * 2))) (Some (- run_size s))
                        (df_sorted s)
          else [])
    /\ previous s = match previous_run s with
                    | [] => []
                    | _ => mean_numeric (previous_run s)
                    end.
Proof.
  intros Hne. destruct df as [|r df']; [contradiction|].
  eexists. split; [reflexivity|]. cbn [df_sorted run_size latest_run latest
    latest_timestamp previous_run previous].
  rewrite sort_values_length.
  assert (E : forall a b, Py.min (fun z : Z => z) (Py.max (fun z : Z => z) a 1) b
                          = Z.min (Z.max a 1) b).
  { intros a b. unfold Py.min, Py.max.
    destruct (Z.ltb_spec a 1); destruct (Z.ltb_spec b 1);
      destruct (Z.ltb_spec b a); lia. }
  rewrite E. repeat split.
Qed.

(** The slices of the summary, for reuse. *)
Lemma run_summarizer_facts (df : DataFrame) (N : Z) :
  df <> [] ->
  exists s,
    render_latest_summary df N = Some s
    /\ 1 <= run_size s <= Z.of_nat (List.length df)
    /\ List.length (latest_run s) = Z.to_nat (run_size s)
    /\ ((2 * Z.to_nat (run_size s) <= List.length df)%nat ->
          List.length (previous_run s) = Z.to_nat (run_size s))
    /\ ((List.length df < 2 * Z.to_nat (run_size s))%nat ->
          previous_run s = []).
Proof.
  intros Hne.
  destruct (render_latest_summary_some df N Hne)
    as (s & Hs & Hsorted & Hn & Hl & _ & _ & Hp & _).
  exists s. split; [exact Hs|].
  assert (Hlen : List.length (df_sorted s) = List.length df).
  { rewrite Hsorted. apply sort_values_length. }
  assert (Hpos : (1 <= List.length df)%nat).
  { destruct df; [contradiction|simpl; lia]. }
  assert (Hrange : 1 <= run_size s <= Z.of_nat (List.length df)) by lia.
  split; [exact Hrange|]. split.
  { rewrite Hl, slice_last by (rewrite Hlen; lia).
    rewrite length_skipn, Hlen. lia. }
  split.
  { intros H2. rewrite Hp.
    destruct (Z.geb_spec (Z.of_nat (List.length df)) (run_size s * 2));
      [|lia].
    rewrite slice_before_last by (rewrite ?Hlen; lia).
    rewrite length_firstn, length_skipn, Hlen. lia. }
  intros H2. rewrite Hp.
  destruct (Z.geb_spec (Z.of_nat (List.length df)) (run_size s * 2));
    [lia|reflexivity].
Qed.

(** C1. For a measurement set with at least one row and any run size [N],
    the Run Summarizer works on the rows sorted by timestamp ascending (a
    permutation of the input) with [N] clamped to [1, total]; the latest run
    is the last [n] rows of the sorted set ([n] the clamped size) and its
    representative time is the largest timestamp of that slice; the previous
    run is the [n] rows immediately before the latest run when the total is
    at least [2n] (the sorted set then ends with the previous run followed
    by the latest run) and is empty otherwise.  With 12 rows and [N = 5] the
    latest run is rows 8-12 and the previous run rows 3-7 of the sorted
    set. *)
Theorem run_summarizer_slices (df : DataFrame) (N : Z) (Hne : df <> []) :
  exists s,
    render_latest_summary df N = Some s
    /\ let total := List.length df in
       let n := Z.to_nat (run_size s) in
       Permutation df (df_sorted s)
       /\ StronglySorted ts_le (df_sorted s)
       /\ run_size s = Z.min (Z.max N 1) (Z.of_nat total)
       /\ 1 <= run_size s <= Z.of_nat total
       /\ (1 <= N <= Z.of_nat total -> run_size s = N)
       /\ latest_run s = skipn (total - n) (df_sorted s)
       /\ List.length (latest_run s) = n
       /\ (exists t, latest_timestamp s = Some t
                     /\ In t (map timestamp (latest_run s))
                     /\ Forall (fun r => instant (timestamp r) <= instant t)
                               (latest_run s))
       /\ ((2 * n <= total)%nat ->
             previous_run s = firstn n (skipn (total - 2 * n) (df_sorted s))
             /\ List.length (previous_run s) = n
             /\ df_sorted s
                = firstn (total - 2 * n) (df_sorted s)
                  ++ previous_run s ++ latest_run s)
       /\ ((total < 2 * n)%nat -> previous_run s = [])
       /\ (total = 12%nat -> N = 5 ->
             latest_run s = skipn 7 (df_sorted s)
             /\ previous_run s = firstn 5 (skipn 2 (df_sorted s))).
Proof.
  destruct (render_latest_summary_some df N Hne)
    as (s & Hs & Hsorted & Hn & Hl & _ & Ht & Hp & _).
  exists s. split; [exact Hs|]. cbv zeta.
  assert (Hlen : List.length (df_sorted s) = List.length df).
  { rewrite Hsorted. apply sort_values_length. }
  assert (Hpos : (1 <= List.length df)%nat).
  { destruct df; [contradiction|simpl; lia]. }
  assert (Hrange : 1 <= run_size s <= Z.of_nat (List.length df)) by lia.
  assert (Hlatest : latest_run s
            = skipn (List.length df - Z.to_nat (run_size s)) (df_sorted s)).
  { rewrite Hl, slice_last by (rewrite Hlen; lia). rewrite Hlen.
    reflexivity. }
  assert (Hll : List.length (latest_run s) = Z.to_nat (run_size s)).
  { rewrite Hlatest, length_skipn, Hlen. lia. }
  assert (Hprev : (2 * Z.to_nat (run_size s) <= List.length df)%nat ->
            previous_run s
            = firstn (Z.to_nat (run_size s))
                (skipn (List.length df - 2 * Z.to_nat (run_size s))
                       (df_sorted s))).
  { intros H2. rewrite Hp.
    destruct (Z.geb_spec (Z.of_nat (List.length df)) (run_size s * 2));
      [|lia].
    rewrite slice_before_last by (rewrite ?Hlen; lia). rewrite Hlen.
    reflexivity. }
  assert (Hnoprev : (List.length df < 2 * Z.to_nat (run_size s))%nat ->
            previous_run s = []).
  { intros H2. rewrite Hp.
    destruct (Z.geb_spec (Z.of_nat (List.length df)) (run_size s * 2));
      [lia|reflexivity]. }
  split. { rewrite Hsorted. apply sort_values_perm. }
  split. { rewrite Hsorted. apply sort_values_sorted. }
  split; [exact Hn|]. split; [exact Hrange|]. split; [lia|].
  split; [exact Hlatest|]. split; [exact Hll|].
  split.
  { destruct (max_timestamp_spec (map timestamp (latest_run s)))
      as (t & Ht1 & Ht2 & Ht3).
    - intros E. apply (f_equal (@List.length _)) in E.
      rewrite length_map, Hll in E. simpl in E. lia.
    - exists t. rewrite Ht. split; [exact Ht1|]. split; [exact Ht2|].
      rewrite Forall_map in Ht3. exact Ht3. }
  split.
  { intros H2. specialize (Hprev H2). split; [exact Hprev|].
    assert (Hpl : List.length (previous_run s) = Z.to_nat (run_size s)).
    { rewrite Hprev, length_firstn, length_skipn, Hlen. lia. }
    split; [exact Hpl|].
    rewrite Hprev, Hlatest.
    set (n := Z.to_nat (run_size s)) in *.
    set (l := df_sorted s) in *.
    replace (List.length df - n)%nat
      with (n + (List.length df - 2 * n))%nat by lia.
    rewrite <- (skipn_skipn n (List.length df - 2 * n) l).
    rewrite (firstn_skipn n), (firstn_skipn (List.length df - 2 * n)).
    reflexivity. }
  split; [exact Hnoprev|].
  intros H12 H5.
  assert (Hr : run_size s = 5) by lia.
  split.
  - rewrite Hlatest, Hr, H12. reflexivity.
  - rewrite Hprev by (rewrite Hr, H12; simpl; lia).
    rewrite Hr, H12. reflexivity.
Qed.

Lemma run_summarizer_slices_witness :
  df12 <> []
  /\ exists s,
       render_latest_summary df12 5 = Some s
       /\ df_sorted s = map reading [1; 2; 3; 4; 5; 6; 7; 8; 9; 10; 11; 12]
       /\ latest_run s = map reading [8; 9; 10; 11; 12]
       /\ previous_run s = map reading [3; 4; 5; 6; 7]
       /\ latest_timestamp s = Some (cet 2024 1 5 12 12).
Proof.
  assert (Hne : df12 <> []) by discriminate.
  split; [exact Hne|].
  destruct (run_summarizer_slices df12 5 Hne) as (s & Hs & _).
  exists s. split; [exact Hs|].
  vm_compute in Hs. injection Hs as <-. repeat split.
Defined.

End RunSummarizer.

(** ** Run-over-run percent change *)

Section PercentChange.

Import Frame Components.

Lemma get_mean_numeric (rows : DataFrame) (m : Metric) :
  Series_get (mean_numeric rows) (metric_name m)
  = Some (mean (map (column m) rows)).
Proof. destruct m; reflexivity. Qed.

Lemma percent_diff_some (previous latest : Series) (key str : string) :
  _percent_diff previous latest key = Some str
  <-> previous <> []
      /\ exists p l,
           Series_get previous key = Some (Some p)
           /\ Series_get latest key = Some (Some l)
           /\ ~ (p == 0)%Q
           /\ str = format_percent ((l - p) / p * 100).
Proof.
  unfold _percent_diff. destruct previous as [|e previous'].
  - split; [discriminate|]. intros [H _]. contradiction.
  - set (previous := e :: previous').
    destruct (Series_get previous key) as [[p|]|];
      try (split; [discriminate|intros (_ & p' & l' & H & _); discriminate]).
    destruct (Series_get latest key) as [[l|]|];
      try (split;
           [discriminate|intros (_ & p' & l' & _ & H & _); discriminate]).
    destruct (Qeq_bool p 0) eqn:E.
    + split; [discriminate|]. intros (_ & p' & l' & Hp & _ & Hz & _).
      injection Hp as <-. apply Qeq_bool_iff in E. contradiction.
    + split.
      * intros H. injection H as <-. split; [discriminate|].
        exists p, l. repeat split; try reflexivity.
        intros Hz. apply Qeq_bool_iff in Hz. congruence.
      * intros (_ & p' & l' & Hp & Hl & _ & ->).
        injection Hp as <-. injection Hl as <-. reflexivity.
Qed.

Lemma percent_diff_none (previous latest : Series) (key : string) :
  _percent_diff previous latest key = None
  <-> previous = []
      \/ isna (Series_get previous key) = true
      \/ isna (Series_get latest key) = true
      \/ exists p, Series_get previous key = Some (Some p) /\ (p == 0)%Q.
Proof.
  unfold _percent_diff. destruct previous as [|e previous'].
  - split; auto.
  - set (previous := e :: previous').
    destruct (Series_get previous key) as [[p|]|]; simpl;
      try (split; [auto|reflexivity]).
    destruct (Series_get latest key) as [[l|]|]; simpl;
      try (split; [auto|reflexivity]).
    destruct (Qeq_bool p 0) eqn:E.
    + split; [|reflexivity]. intros _. right. right. right. exists p.
      split; [reflexivity|]. apply Qeq_bool_iff. exact E.
    + split; [discriminate|].
      intros [H|[H|[H|(p' & Hp & Hz)]]]; try discriminate.
      injection Hp as <-. apply Qeq_bool_iff in Hz. congruence.
Qed.

(** C2. For every metric the percent change of the summary is the formatted
    value of (latest mean - previous mean) / previous mean * 100, and it is
    defined exactly when the previous run exists, both means are present and
    the previous mean is not zero.  In every other case the result is the
    no-comparison value [None], which is not a formatted number; the
    function is total.  The previous run exists exactly when the set has at
    least twice the (clamped) run size of rows.  The same holds for
    [_percent_diff] on any two series and any key. *)
Theorem percent_change_defined (df : DataFrame) (N : Z) (m : Metric) :
  match render_latest_summary df N with
  | None => df = []
  | Some s =>
      let prev_mean := mean (map (column m) (previous_run s)) in
      let latest_mean := mean (map (column m) (latest_run s)) in
      (forall str, delta s m = Some str
         <-> previous_run s <> []
             /\ exists p l, prev_mean = Some p /\ latest_mean = Some l
                            /\ ~ (p == 0)%Q
                            /\ str = format_percent ((l - p) / p * 100))
      /\ (delta s m = None
          <-> previous_run s = []
              \/ prev_mean = None \/ latest_mean = None
              \/ exists p, prev_mean = Some p /\ (p == 0)%Q)
      /\ (previous_run s <> []
          <-> 2 * run_size s <= Z.of_nat (List.length df))
  end
  /\ (forall previous latest key,
        (forall str, _percent_diff previous latest key = Some str
           <-> previous <> []
               /\ exists p l,
                    Series_get previous key = Some (Some p)
                    /\ Series_get latest key = Some (Some l)
                    /\ ~ (p == 0)%Q
                    /\ str = format_percent ((l - p) / p * 100))
        /\ (_percent_diff previous latest key = None
            <-> previous = []
                \/ isna (Series_get previous key) = true
                \/ isna (Series_get latest key) = true
                \/ exists p, Series_get previous key = Some (Some p)
                             /\ (p == 0)%Q)).
Proof.
  split.
  2:{ intros previous latest key. split.
      - intros str. apply percent_diff_some.
      - apply percent_diff_none. }
  destruct df as [|r0 df']; [reflexivity|].
  set (df := r0 :: df').
  assert (Hne : df <> []) by discriminate.
  destruct (run_summarizer_facts df N Hne)
    as (s & Hs & Hrange & Hll & Hprev & Hnoprev).
  rewrite Hs. cbv zeta.
  destruct (render_latest_summary_some df N Hne)
    as (s' & Hs' & _ & _ & _ & Hlat & _ & _ & Hp).
  assert (s' = s) by congruence. subst s'.
  assert (Hpe : previous s = [] <-> previous_run s = []).
  { rewrite Hp. destruct (previous_run s); [tauto|].
    split; discriminate. }
  assert (Hgp : previous_run s <> [] ->
            Series_get (previous s) (metric_name m)
            = Some (mean (map (column m) (previous_run s)))).
  { intros H. rewrite Hp. destruct (previous_run s) eqn:E; [contradiction|].
    apply get_mean_numeric. }
  assert (Hgl : Series_get (latest s) (metric_name m)
                = Some (mean (map (column m) (latest_run s)))).
  { rewrite Hlat. apply get_mean_numeric. }
  split; [|split].
  - intros str. unfold delta. rewrite percent_diff_some, Hgl.
    split.
    + intros (Hnp & p & l & H1 & H2 & H3 & H4).
      assert (Hr : previous_run s <> []) by (rewrite <- Hpe; exact Hnp).
      split; [exact Hr|]. rewrite (Hgp Hr) in H1.
      injection H1 as H1. injection H2 as H2.
      exists p, l. repeat split; assumption.
    + intros (Hr & p & l & H1 & H2 & H3 & H4).
      split; [rewrite Hpe; exact Hr|]. rewrite (Hgp Hr).
      exists p, l. rewrite H1, H2. repeat split; assumption.
  - unfold delta. rewrite percent_diff_none, Hgl, Hpe.
    destruct (previous_run s) as [|x xs] eqn:E.
    + split; auto.
    + rewrite <- E in *. assert (Hr : previous_run s <> []) by congruence.
      rewrite (Hgp Hr). simpl isna.
      destruct (mean (map (column m) (previous_run s))) as [p|];
        destruct (mean (map (column m) (latest_run s))) as [l|];
        split; intros H; auto;
        repeat (destruct H as [H|H]); try congruence; try discriminate;
        auto.
      * destruct H as (p' & H1 & H2). injection H1 as <-.
        right. right. right. exists p. auto.
      * destruct H as (p' & H1 & H2). injection H1 as <-.
        right. right. right. exists p. auto.
  - split.
    + intros Hr.
      destruct (Z_le_gt_dec (2 * run_size s) (Z.of_nat (List.length df)));
        [assumption|].
      exfalso. apply Hr, Hnoprev. lia.
    + intros H2 E.
      assert (Hl : List.length (previous_run s) = Z.to_nat (run_size s)).
      { apply Hprev. lia. }
      rewrite E in Hl. simpl in Hl. lia.
Qed.

Lemma percent_change_defined_witness :
  match render_latest_summary df12 5 with
  | Some s => delta s Download = Some "+100.0%"%string
  | None => False
  end
  /\ match render_latest_summary (firstn 7 df12) 5 with
     | Some s => delta s Download = None
     | None => False
     end.
Proof.
  split.
  - destruct (percent_change_defined df12 5 Download) as [H _].
    destruct (render_latest_summary df12 5) as [s|] eqn:E;
      [|discriminate H].
    destruct H as (Hsome & _). apply Hsome.
    vm_compute in E. injection E as <-.
    split; [discriminate|].
    eexists. eexists. split; [reflexivity|]. split; [reflexivity|].
    split; [intros Hz; discriminate Hz|reflexivity].
  - destruct (percent_change_defined (firstn 7 df12) 5 Download) as [H _].
    destruct (render_latest_summary (firstn 7 df12) 5) as [s|] eqn:E;
      [|discriminate H].
    destruct H as (_ & Hnone & _). apply Hnone.
    vm_compute in E. injection E as <-. left. reflexivity.
Defined.

End PercentChange.

(** ** Quantile bands *)

Section Quantiles.

Import Frame Charts.
Local Open Scope Q_scope.

Lemma insert_q_In (x : Q) (l : list Q) (y : Q) :
  In y (insert_q x l) -> y = x \/ In y l.
Proof.
  induction l as [|a l IH]; simpl.
  - intuition.
  - destruct (Qle_bool x a); simpl; intuition.
Qed.

Lemma insert_q_length (x : Q) (l : list Q) :
  List.length (insert_q x l) = S (List.length l).
Proof.
  induction l as [|a l IH]; simpl; [reflexivity|].
  destruct (Qle_bool x a); simpl; congruence.
Qed.

Lemma sort_q_length (l : list Q) : List.length (sort_q l) = List.length l.
Proof.
  induction l as [|a l IH]; simpl; [reflexivity|].
  rewrite insert_q_length. congruence.
Qed.

Lemma insert_q_sorted (x : Q) (l : list Q) :
  StronglySorted Qle l -> StronglySorted Qle (insert_q x l).
Proof.
  induction 1 as [|a l Hs IH Hall]; simpl.
  - repeat constructor.
  - destruct (Qle_bool x a) eqn:E.
    + apply Qle_bool_iff in E.
      constructor; [constructor; assumption|].
      constructor; [exact E|].
      rewrite Forall_forall in *. intros y Hy. specialize (Hall y Hy). lra.
    + assert (Hax : a <= x).
      { destruct (Qlt_le_dec a x) as [H|H]; [lra|].
        apply Qle_bool_iff in H. congruence. }
      constructor; [exact IH|].
      rewrite Forall_forall in *. intros y Hy.
      apply insert_q_In in Hy. destruct Hy as [->|Hy]; [exact Hax|].
      apply Hall, Hy.
Qed.

Lemma sort_q_sorted (l : list Q) : StronglySorted Qle (sort_q l).
Proof.
  induction l as [|a l IH]; simpl; [constructor|].
  apply insert_q_sorted, IH.
Qed.

(** Order statistics of a sorted list grow with the index. *)
Lemma nth_sorted (xs : list Q) :
  StronglySorted Qle xs ->
  forall i j, (i <= j)%nat -> (j < List.length xs)%nat ->
              nth i xs 0 <= nth j xs 0.
Proof.
  induction 1 as [|a l Hs IH Hall]; intros i j Hij Hj; simpl in Hj.
  - lia.
  - destruct j as [|j].
    + assert (i = O) by lia. subst i. simpl. lra.
    + destruct i as [|i]; simpl.
      * rewrite Forall_forall in Hall. apply Hall, nth_In. lia.
      * apply IH; lia.
Qed.

Lemma floor_unique (p : Q) (z : Z) :
  inject_Z z <= p -> p < inject_Z (z + 1) -> Qfloor p = z.
Proof.
  intros H1 H2.
  pose proof (Qfloor_le p) as F1. pose proof (Qlt_floor p) as F2.
  assert (A : (Qfloor p < z + 1)%Z) by (rewrite Zlt_Qlt; lra).
  assert (B : (z < Qfloor p + 1)%Z) by (rewrite Zlt_Qlt; lra).
  lia.
Qed.

(** The lower index of the interpolation, for a virtual index inside the
    list. *)
Lemma floor_index (n : nat) (p : Q) :
  0 <= p -> p <= of_nat n ->
  let lo := Z.to_nat (Qfloor p) in
  (lo <= n)%nat /\ of_nat lo <= p /\ p < of_nat lo + 1.
Proof.
  intros H0 Hn. cbv zeta.
  assert (F0 : (0 <= Qfloor p)%Z).
  { change 0%Z with (Qfloor 0). apply Qfloor_resp_le. exact H0. }
  assert (Fn : (Qfloor p <= Z.of_nat n)%Z).
  { rewrite <- (Qfloor_Z (Z.of_nat n)). apply Qfloor_resp_le. exact Hn. }
  pose proof (Qfloor_le p) as F1. pose proof (Qlt_floor p) as F2.
  unfold of_nat. rewrite Z2Nat.id by exact F0.
  split; [lia|]. split; [exact F1|].
  rewrite inject_Z_plus in F2. exact F2.
Qed.

(** The interpolated value lies between its two neighbours. *)
Lemma interpolate_bounds (xs : list Q) (p : Q) :
  StronglySorted Qle xs -> xs <> [] ->
  0 <= p -> p <= of_nat (List.length xs - 1) ->
  let lo := Z.to_nat (Qfloor p) in
  let hi := Nat.min (lo + 1) (List.length xs - 1) in
  nth lo xs 0 <= interpolate xs p /\ interpolate xs p <= nth hi xs 0.
Proof.
  intros Hs Hne H0 Hn. cbv zeta.
  assert (Hlen : (1 <= List.length xs)%nat).
  { destruct xs; [contradiction|simpl; lia]. }
  destruct (floor_index _ p H0 Hn) as (Hlo & F1 & F2).
  unfold interpolate.
  set (lo := Z.to_nat (Qfloor p)) in *.
  set (hi := Nat.min (lo + 1) (List.length xs - 1)).
  assert (Hab : nth lo xs 0 <= nth hi xs 0).
  { apply nth_sorted; [exact Hs| |]; unfold hi; lia. }
  split; nra.
Qed.

(** The interpolated value grows with the virtual index. *)
Lemma interpolate_mono (xs : list Q) (p1 p2 : Q) :
  StronglySorted Qle xs -> xs <> [] ->
  0 <= p1 -> p1 <= p2 -> p2 <= of_nat (List.length xs - 1) ->
  interpolate xs p1 <= interpolate xs p2.
Proof.
  intros Hs Hne H0 H12 Hn.
  assert (Hlen : (1 <= List.length xs)%nat).
  { destruct xs; [contradiction|simpl; lia]. }
  assert (Hn1 : p1 <= of_nat (List.length xs - 1)) by lra.
  assert (H02 : 0 <= p2) by lra.
  destruct (interpolate_bounds xs p1 Hs Hne H0 Hn1) as [L1 U1].
  destruct (interpolate_bounds xs p2 Hs Hne H02 Hn) as [L2 U2].
  destruct (floor_index _ p1 H0 Hn1) as (Hlo1 & F1 & G1).
  destruct (floor_index _ p2 H02 Hn) as (Hlo2 & F2 & G2).
  assert (Hfl : (Qfloor p1 <= Qfloor p2)%Z) by (apply Qfloor_resp_le; lra).
  set (lo1 := Z.to_nat (Qfloor p1)) in *.
  set (lo2 := Z.to_nat (Qfloor p2)) in *.
  destruct (Nat.eq_dec lo1 lo2) as [E|E].
  - unfold interpolate. fold lo1. fold lo2. rewrite <- E.
    set (hi := Nat.min (lo1 + 1) (List.length xs - 1)).
    assert (Hab : nth lo1 xs 0 <= nth hi xs 0).
    { apply nth_sorted; [exact Hs| |]; unfold hi; lia. }
    rewrite <- E in F2, G2. nra.
  - assert (Hlt : (lo1 + 1 <= lo2)%nat).
    { assert (P1 : (0 <= Qfloor p1)%Z).
      { change 0%Z with (Qfloor 0). apply Qfloor_resp_le. exact H0. }
      unfold lo1, lo2 in *. lia. }
    assert (Hmid : nth (Nat.min (lo1 + 1) (List.length xs - 1)) xs 0
                   <= nth lo2 xs 0).
    { apply nth_sorted; [exact Hs| |]; lia. }
    lra.
Qed.

(** At a whole virtual index the interpolation is that order statistic. *)
Lemma interpolate_whole (xs : list Q) (p : Q) (k : nat) :
  p == of_nat k -> interpolate xs p == nth k xs 0.
Proof.
  intros Hp. unfold interpolate.
  assert (Hf : Qfloor p = Z.of_nat k).
  { apply floor_unique; unfold of_nat in Hp.
    - lra.
    - rewrite inject_Z_plus. change (inject_Z 1) with 1. lra. }
  rewrite Hf, Nat2Z.id.
  assert (Hfr : p - of_nat k == 0) by lra.
  rewrite Hfr. lra.
Qed.

(** Half-way between two whole indices it is the mean of the two. *)
Lemma interpolate_half (xs : list Q) (p : Q) (k : nat) :
  (k + 1 <= List.length xs - 1)%nat ->
  p == of_nat k + (1 # 2) ->
  interpolate xs p == (nth k xs 0 + nth (k + 1) xs 0) / 2.
Proof.
  intros Hk Hp. unfold interpolate.
  assert (Hf : Qfloor p = Z.of_nat k).
  { apply floor_unique; unfold of_nat in Hp.
    - lra.
    - rewrite inject_Z_plus. change (inject_Z 1) with 1. lra. }
  rewrite Hf, Nat2Z.id.
  replace (Nat.min (k + 1) (List.length xs - 1)) with (k + 1)%nat by lia.
  assert (Hfr : p - of_nat k == 1 # 2) by lra.
  rewrite Hfr. field.
Qed.

Lemma of_nat_double (k : nat) : of_nat (2 * k) == 2 * of_nat k.
Proof.
  unfold of_nat. rewrite Nat2Z.inj_mul, inject_Z_mult. reflexivity.
Qed.

Lemma of_nat_succ (k : nat) : of_nat (S k) == of_nat k + 1.
Proof.
  unfold of_nat. rewrite Nat2Z.inj_succ. unfold Z.succ.
  rewrite inject_Z_plus. reflexivity.
Qed.

(** The median is the interpolation at the middle virtual index. *)
Lemma median_is_half_quantile (xs : list Q) (b : Q) :
  let n := List.length xs in
  n <> O ->
  (if Nat.odd n then Some (nth (n / 2) xs 0)
   else Some ((nth (n / 2 - 1) xs 0 + nth (n / 2) xs 0) / 2)) = Some b ->
  b == interpolate xs ((1 # 2) * of_nat (n - 1)).
Proof.
  cbv zeta. intros Hn Hb.
  destruct (Nat.odd (List.length xs)) eqn:Hodd.
  - apply Nat.odd_spec in Hodd. destruct Hodd as [k Hk].
    assert (Hd : (List.length xs / 2)%nat = k).
    { rewrite Hk. symmetry. apply Nat.div_unique with 1%nat; lia. }
    rewrite Hd in Hb. injection Hb as <-.
    symmetry. apply interpolate_whole.
    replace (List.length xs - 1)%nat with (2 * k)%nat by lia.
    rewrite of_nat_double. lra.
  - assert (Hev : Nat.even (List.length xs) = true).
    { rewrite <- Nat.negb_odd, Hodd. reflexivity. }
    apply Nat.even_spec in Hev. destruct Hev as [k Hk].
    destruct k as [|j]; [lia|].
    assert (Hd : (List.length xs / 2)%nat = (j + 1)%nat).
    { rewrite Hk. symmetry. apply Nat.div_unique with 0%nat; lia. }
    rewrite Hd in Hb. replace (j + 1 - 1)%nat with j in Hb by lia.
    injection Hb as <-.
    symmetry. apply interpolate_half; [lia|].
    replace (List.length xs - 1)%nat with (S (2 * j)) by lia.
    rewrite of_nat_succ, of_nat_double. lra.
Qed.

Lemma quantile_some (q : Q) (l : list cell) :
  dropna l <> [] ->
  quantile q l
  = Some (interpolate (sort_q (dropna l))
            (q * of_nat (List.length (sort_q (dropna l)) - 1))).
Proof.
  intros Hne. unfold quantile.
  destruct (List.length (sort_q (dropna l))) eqn:E; [|reflexivity].
  rewrite sort_q_length in E. destruct (dropna l); [contradiction|].
  discriminate.
Qed.

Lemma median_some (l : list cell) :
  dropna l <> [] ->
  exists b,
    median l = Some b
    /\ b == interpolate (sort_q (dropna l))
              ((1 # 2) * of_nat (List.length (sort_q (dropna l)) - 1)).
Proof.
  intros Hne.
  assert (Hn : List.length (sort_q (dropna l)) <> O).
  { rewrite sort_q_length. destruct (dropna l); [contradiction|].
    discriminate. }
  pose proof (median_is_half_quantile (sort_q (dropna l))) as Hm.
  cbv zeta in Hm.
  assert (Hdef : median l
            = if Nat.odd (List.length (sort_q (dropna l)))
              then Some (nth (List.length (sort_q (dropna l)) / 2)
                             (sort_q (dropna l)) 0)
              else Some ((nth (List.length (sort_q (dropna l)) / 2 - 1)
                              (sort_q (dropna l)) 0
                          + nth (List.length (sort_q (dropna l)) / 2)
                                (sort_q (dropna l)) 0) / 2)).
  { unfold median.
    destruct (List.length (sort_q (dropna l))) eqn:E; [contradiction|].
    reflexivity. }
  rewrite Hdef.
  destruct (Nat.odd (List.length (sort_q (dropna l)))) eqn:Ho;
    eexists; (split; [reflexivity|]); apply Hm; try exact Hn;
    reflexivity.
Qed.

(** The three statistics of a bucket. *)
Lemma stats_band (l : list cell) :
  (dropna l <> [] ->
     exists a b c, quantile q25 l = Some a /\ median l = Some b
                   /\ quantile q75 l = Some c /\ a <= b /\ b <= c)
  /\ (dropna l = [] ->
        quantile q25 l = None /\ median l = None /\ quantile q75 l = None).
Proof.
  split.
  - intros Hne.
    destruct (median_some l Hne) as (b & Hb & Hbq).
    rewrite (quantile_some q25 l Hne), (quantile_some q75 l Hne), Hb.
    set (xs := sort_q (dropna l)) in *.
    assert (Hs : StronglySorted Qle xs) by apply sort_q_sorted.
    assert (Hxs : xs <> []).
    { intros E. apply (f_equal (@List.length _)) in E. unfold xs in E.
      rewrite sort_q_length in E. destruct (dropna l); [contradiction|].
      discriminate. }
    assert (Hp : 0 <= of_nat (List.length xs - 1)).
    { unfold of_nat. change 0 with (inject_Z 0). rewrite <- Zle_Qle. lia. }
    eexists. exists b. eexists.
    split; [reflexivity|]. split; [reflexivity|]. split; [reflexivity|].
    split.
    + rewrite Hbq. apply interpolate_mono; try assumption; unfold q25; nra.
    + rewrite Hbq. apply interpolate_mono; try assumption; unfold q75; nra.
  - intros E. unfold quantile, median. rewrite E. simpl. auto.
Qed.

Lemma band_of_bucket (xs : list cell) (s : Series) :
  Series_get s "q25" = Some (quantile q25 xs) ->
  Series_get s "median" = Some (median xs) ->
  Series_get s "q75" = Some (quantile q75 xs) ->
  (dropna xs <> [] -> band_ordered s)
  /\ (dropna xs = [] -> band_missing s).
Proof.
  intros H1 H2 H3. destruct (stats_band xs) as [Hsome Hnone]. split.
  - intros Hne. destruct (Hsome Hne) as (a & b & c & A & B & C & L1 & L2).
    exists a, b, c. rewrite H1, H2, H3, A, B, C. auto.
  - intros He. destruct (Hnone He) as (A & B & C).
    unfold band_missing. rewrite H1, H2, H3, A, B, C. auto.
Qed.

Lemma dropna_present (l : list cell) :
  Forall (fun x => x <> None) l -> l <> [] -> dropna l <> [].
Proof.
  intros Hall Hne. destruct l as [|x l]; [contradiction|].
  inversion Hall as [|? ? Hx _]; subst.
  destruct x as [q|]; [discriminate|contradiction].
Qed.

Lemma bucket_present (m : Metric) (f : row -> bool) (df : DataFrame) :
  Forall (fun r => column m r <> None) df ->
  Forall (fun x => x <> None) (map (column m) (filter f df)).
Proof.
  intros H. rewrite Forall_map. rewrite Forall_forall in *.
  intros r Hr. apply filter_In in Hr. apply H, Hr.
Qed.

(** The band of every record of an aggregation that holds the three
    quantile fields. *)
Lemma agg_band (key : row -> Z) (m : Metric)
  (spec : list (string * (list cell -> cell))) (df : DataFrame) :
  (forall xs, Series_get (map (fun na => (fst na, snd na xs)) spec) "q25"
              = Some (quantile q25 xs)) ->
  (forall xs, Series_get (map (fun na => (fst na, snd na xs)) spec) "median"
              = Some (median xs)) ->
  (forall xs, Series_get (map (fun na => (fst na, snd na xs)) spec) "q75"
              = Some (quantile q75 xs)) ->
  let stats := agg m spec (groupby Z.compare key df) in
  Forall (fun ks =>
            let xs := map (column m)
                          (filter (fun r => (key r =? fst ks)%Z) df) in
            xs <> []
            /\ (dropna xs <> [] -> band_ordered (snd ks))
            /\ (dropna xs = [] -> band_missing (snd ks))) stats
  /\ (Forall (fun r => column m r <> None) df ->
      Forall (fun ks => band_ordered (snd ks)) stats).
Proof.
  intros G1 G2 G3. cbv zeta.
  destruct (agg_rows key m spec df) as (_ & _ & H).
  assert (Hmain : Forall (fun ks =>
            let xs := map (column m)
                          (filter (fun r => (key r =? fst ks)%Z) df) in
            xs <> []
            /\ (dropna xs <> [] -> band_ordered (snd ks))
            /\ (dropna xs = [] -> band_missing (snd ks)))
            (agg m spec (groupby Z.compare key df))).
  { eapply Forall_impl; [|exact H]. intros [k s]. cbv zeta. simpl fst.
    simpl snd. intros [Hne ->]. split; [exact Hne|].
    apply band_of_bucket; [apply G1|apply G2|apply G3]. }
  split; [exact Hmain|].
  intros Hpres. eapply Forall_impl; [|exact Hmain].
  intros [k s]. cbv zeta. simpl fst. simpl snd. intros (Hne & Hord & _).
  apply Hord. apply dropna_present; [|exact Hne].
  apply bucket_present, Hpres.
Qed.

(** C3 (as stated, refuted). A bucket of one row whose metric value is
    missing has all three statistics missing, so q25 <= median <= q75 does
    not hold for it. *)
Lemma missing_bucket_band_not_ordered :
  match create_median_band_chart [row_missing] Download with
  | Layers [(t, s)] =>
      t = instant noon /\ band_missing s /\ ~ band_ordered s
  | _ => False
  end.
Proof.
  vm_compute. split; [reflexivity|]. split; [repeat split|].
  intros (a & b & c & H & _). discriminate H.
Qed.

(** C3 (amended). For every input subset and selected metric, every bucket
    of the Interval Aggregator (grouped by exact timestamp) and of the
    Diurnal Aggregator (grouped by hour of day) that contains at least one
    row whose metric value is present satisfies q25 <= median <= q75, with
    the quantiles taken by linear interpolation between order statistics; a
    bucket whose metric values are all missing has the three statistics
    missing.  In particular, when no metric value of the input is missing,
    every bucket satisfies q25 <= median <= q75. *)
Theorem quantile_band_ordered (df : DataFrame) (m : Metric) :
  match create_median_band_chart df m with
  | NoData => df = []
  | Layers stats =>
      Forall (fun ks =>
                let xs := map (column m)
                            (filter (fun r =>
                               (instant (timestamp r) =? fst ks)%Z) df) in
                xs <> []
                /\ (dropna xs <> [] -> band_ordered (snd ks))
                /\ (dropna xs = [] -> band_missing (snd ks))) stats
      /\ (Forall (fun r => column m r <> None) df ->
          Forall (fun ks => band_ordered (snd ks)) stats)
  end
  /\ match create_24h_median_band_chart df m with
     | NoData => df = []
     | Layers stats =>
         Forall (fun ks =>
                   let xs := map (column m)
                               (filter (fun r =>
                                  (hour (timestamp r) =? fst ks)%Z) df) in
                   xs <> []
                   /\ (dropna xs <> [] -> band_ordered (snd ks))
                   /\ (dropna xs = [] -> band_missing (snd ks))) stats
         /\ (Forall (fun r => column m r <> None) df ->
             Forall (fun ks => band_ordered (snd ks)) stats)
     end.
Proof.
  split.
  - destruct df as [|r0 df']; [reflexivity|].
    unfold create_median_band_chart.
    apply (agg_band (fun r => instant (timestamp r)) m); reflexivity.
  - destruct df as [|r0 df']; [reflexivity|].
    unfold create_24h_median_band_chart.
    apply (agg_band (fun r => hour (timestamp r)) m); reflexivity.
Qed.

Lemma quantile_band_ordered_witness :
  Forall (fun r => column Download r <> None) five_readings
  /\ match create_median_band_chart five_readings Download with
     | NoData => False
     | Layers stats =>
         map fst stats = [instant noon; instant noon + 3600]%Z
         /\ Forall (fun ks => band_ordered (snd ks)) stats
     end.
Proof.
  assert (Hp : Forall (fun r => column Download r <> None) five_readings).
  { repeat constructor; discriminate. }
  split; [exact Hp|].
  destruct (quantile_band_ordered five_readings Download) as [H _].
  destruct (create_median_band_chart five_readings Download) as [|stats]
    eqn:E.
  - discriminate H.
  - split; [|apply H, Hp].
    vm_compute in E. injection E as <-. reflexivity.
Defined.

End Quantiles.

(** * Further properties of the window logic *)

Section WindowExtras.

Import App.

Lemma filter_all {A} (p : A -> bool) (l : list A) :
  filter p l = l <-> forall x, In x l -> p x = true.
Proof.
  induction l as [|a l IH]; simpl.
  - split; [intros _ x []|reflexivity].
  - destruct (p a) eqn:E.
    + split.
      * intros H. injection H as H. intros x [<-|Hx]; [exact E|].
        apply IH; assumption.
      * intros H. f_equal. apply IH. intros x Hx. apply H. auto.
    + split.
      * intros H. exfalso.
        assert (Hl : (List.length (filter p l) <= List.length l)%nat)
          by apply filter_length_le.
        rewrite H in Hl. simpl in Hl. lia.
      * intros H. specialize (H a (or_introl eq_refl)). congruence.
Qed.

(** A window keeps the whole frame exactly when every row lies between its
    two ends; the data bounds as window lose no row. *)
Theorem chart_window_covering (df : DataFrame) (s e : Timestamp) :
  chart_df df s e = df
  <-> forall r, In r df ->
        instant s <= instant (timestamp r) <= instant e.
Proof.
  unfold chart_df. split.
  - intros H r Hr.
    pose proof (proj1 (filter_all _ _) H r Hr) as Hp. simpl in Hp.
    apply andb_true_iff in Hp. rewrite !Z.leb_le in Hp. exact Hp.
  - intros H. apply filter_all. intros r Hr.
    apply andb_true_iff. rewrite !Z.leb_le. apply H, Hr.
Qed.

(** Filtering by one window and then by another is filtering by their
    intersection; filtering twice by the same window changes nothing. *)
Theorem chart_window_compose (df : DataFrame) (s e s' e' : Timestamp) :
  chart_df (chart_df df s e) s' e'
  = chart_df df (Py.max instant s s') (Py.min instant e e')
  /\ chart_df (chart_df df s e) s e = chart_df df s e.
Proof.
  assert (H : forall a b a' b',
            chart_df (chart_df df a b) a' b'
            = chart_df df (Py.max instant a a') (Py.min instant b b')).
  { intros a b a' b'. unfold chart_df.
    induction df as [|r df IH]; simpl; [reflexivity|].
    rewrite py_max_instant, py_min_instant.
    destruct (Z.leb_spec (instant a) (instant (timestamp r)));
      destruct (Z.leb_spec (instant (timestamp r)) (instant b));
      simpl;
      destruct (Z.leb_spec (instant a') (instant (timestamp r)));
      destruct (Z.leb_spec (instant (timestamp r)) (instant b'));
      destruct (Z.leb_spec (Z.max (instant a) (instant a'))
                           (instant (timestamp r)));
      destruct (Z.leb_spec (instant (timestamp r))
                           (Z.min (instant b) (instant b')));
      simpl; try lia; rewrite ?py_max_instant, ?py_min_instant in IH;
      rewrite ?IH; reflexivity. }
  split; [apply H|].
  apply filter_all. intros r Hr. unfold chart_df in Hr.
  apply filter_In in Hr. apply Hr.
Qed.

(** Clamping the requested range to the data range selects the same rows as
    the request itself, when the data range bounds every row. *)
Theorem clamp_keeps_selection (df : DataFrame)
  (min_t max_t req_s req_e : Timestamp)
  (Hbounds : forall r, In r df ->
               instant min_t <= instant (timestamp r) <= instant max_t) :
  chart_df df (clamped_start req_s min_t) (clamped_end req_e max_t)
  = chart_df df req_s req_e.
Proof.
  unfold chart_df, clamped_start, clamped_end. apply filter_ext_in.
  intros r Hr. specialize (Hbounds r Hr).
  rewrite py_max_instant, py_min_instant.
  destruct (Z.leb_spec (Z.max (instant req_s) (instant min_t))
                       (instant (timestamp r)));
    destruct (Z.leb_spec (instant (timestamp r))
                         (Z.min (instant req_e) (instant max_t)));
    destruct (Z.leb_spec (instant req_s) (instant (timestamp r)));
    destruct (Z.leb_spec (instant (timestamp r)) (instant req_e));
    simpl; try reflexivity; lia.
Qed.

Lemma clamp_keeps_selection_witness :
  (forall r, In r df12 ->
     instant (cet 2024 1 5 12 1) <= instant (timestamp r)
     <= instant (cet 2024 1 5 12 12))
  /\ chart_df df12
       (clamped_start (cet 2024 1 5 0 0) (cet 2024 1 5 12 1))
       (clamped_end (cet 2024 1 5 12 5) (cet 2024 1 5 12 12))
     = chart_df df12 (cet 2024 1 5 0 0) (cet 2024 1 5 12 5).
Proof.
  assert (H : forall r, In r df12 ->
            instant (cet 2024 1 5 12 1) <= instant (timestamp r)
            <= instant (cet 2024 1 5 12 12)).
  { intros r Hr. unfold df12 in Hr. simpl in Hr.
    repeat (destruct Hr as [<-|Hr]; [vm_compute; split; discriminate|]).
    contradiction. }
  split; [exact H|]. apply (clamp_keeps_selection df12 _ _ _ _ H).
Defined.

(** A range that passes the validation lies inside the data range and
    inside the request, and the data range is not a single instant: with
    one instant of data no range can be applied. *)
Theorem valid_window_inside_data (min_t max_t req_s req_e : Timestamp)
  (Hvalid : valid (clamped_start req_s min_t) (clamped_end req_e max_t)
            = true) :
  let cs := clamped_start req_s min_t in
  let ce := clamped_end req_e max_t in
  instant min_t <= instant cs
  /\ instant cs < instant ce
  /\ instant ce <= instant max_t
  /\ instant req_s <= instant cs
  /\ instant ce <= instant req_e
  /\ instant min_t < instant max_t
  /\ instant req_s < instant max_t
  /\ instant min_t < instant req_e.
Proof.
  cbv zeta. unfold valid, apply_disabled, validation_error in Hvalid.
  unfold clamped_start, clamped_end in *.
  rewrite py_max_instant, py_min_instant in *.
  rewrite Z.geb_leb in Hvalid.
  destruct (Z.leb_spec (Z.min (instant req_e) (instant max_t))
                       (Z.max (instant req_s) (instant min_t)));
    [discriminate|]. lia.
Qed.

Lemma valid_window_inside_data_witness :
  valid (clamped_start (cet 2023 12 1 0 0) (cet 2024 1 1 0 0))
        (clamped_end (cet 2024 1 5 0 0) (cet 2024 1 10 0 0)) = true
  /\ instant (cet 2024 1 1 0 0) < instant (cet 2024 1 10 0 0).
Proof.
  assert (H : valid (clamped_start (cet 2023 12 1 0 0) (cet 2024 1 1 0 0))
                    (clamped_end (cet 2024 1 5 0 0) (cet 2024 1 10 0 0))
              = true) by reflexivity.
  split; [exact H|].
  apply (valid_window_inside_data _ _ _ _ H).
Defined.

(** The applied values are a fixed point of the clamp: clamping the stored
    range again against the same data range returns it unchanged, with the
    same verdict; a request inside the data range is stored as it is. *)
Theorem clamp_idempotent (min_t max_t req_s req_e : Timestamp) :
  let cs := clamped_start req_s min_t in
  let ce := clamped_end req_e max_t in
  clamped_start cs min_t = cs
  /\ clamped_end ce max_t = ce
  /\ valid (clamped_start cs min_t) (clamped_end ce max_t) = valid cs ce
  /\ (instant min_t <= instant req_s -> cs = req_s)
  /\ (instant req_e <= instant max_t -> ce = req_e).
Proof.
  cbv zeta.
  assert (A : clamped_start (clamped_start req_s min_t) min_t
              = clamped_start req_s min_t).
  { unfold clamped_start, Py.max.
    destruct (Z.ltb_spec (instant req_s) (instant min_t)) as [H|H].
    - rewrite Z.ltb_irrefl. reflexivity.
    - destruct (Z.ltb_spec (instant req_s) (instant min_t)); [lia|].
      reflexivity. }
  assert (B : clamped_end (clamped_end req_e max_t) max_t
              = clamped_end req_e max_t).
  { unfold clamped_end, Py.min.
    destruct (Z.ltb_spec (instant max_t) (instant req_e)) as [H|H].
    - rewrite Z.ltb_irrefl. reflexivity.
    - destruct (Z.ltb_spec (instant max_t) (instant req_e)); [lia|].
      reflexivity. }
  split; [exact A|]. split; [exact B|]. split; [rewrite A, B; reflexivity|].
  split.
  - intros H. unfold clamped_start, Py.max.
    destruct (Z.ltb_spec (instant req_s) (instant min_t)); [lia|reflexivity].
  - intros H. unfold clamped_end, Py.min.
    destruct (Z.ltb_spec (instant max_t) (instant req_e)); [lia|reflexivity].
Qed.



End WindowExtras.

(** * Further properties of the startup checks *)

Section StaleData.

Import Dashboard.
Local Open Scope Q_scope.

Lemma round_half_even_near (q : Q) :
  inject_Z (Components.round_half_even q) - q <= 1 # 2
  /\ q - inject_Z (Components.round_half_even q) <= 1 # 2.
Proof.
  unfold Components.round_half_even.
  pose proof (Qfloor_le q) as F1. pose proof (Qlt_floor q) as F2.
  rewrite inject_Z_plus in F2. change (inject_Z 1) with 1 in F2.
  destruct (Qcompare (q - inject_Z (Qfloor q)) (1 # 2)) eqn:E.
  - apply Qeq_alt in E.
    destruct (Z.even (Qfloor q)).
    + split; lra.
    + rewrite inject_Z_plus. change (inject_Z 1) with 1. split; lra.
  - apply Qlt_alt in E. split; lra.
  - apply Qgt_alt in E. rewrite inject_Z_plus. change (inject_Z 1) with 1.
    split; lra.
Qed.

Lemma Z_of_Q_lower (z : Z) (k : Z) (q : Q) :
  inject_Z k - 1 < q -> q <= inject_Z z -> (k <= z)%Z.
Proof.
  intros H1 H2.
  assert (H : inject_Z (k - 1) < inject_Z z).
  { unfold Z.sub. rewrite inject_Z_plus, inject_Z_opp.
    change (inject_Z 1) with 1. lra. }
  rewrite <- Zlt_Qlt in H. lia.
Qed.

Lemma Z_of_Q_upper (z : Z) (k : Z) (q : Q) :
  q < inject_Z k + 1 -> inject_Z z <= q -> (z <= k)%Z.
Proof.
  intros H1 H2.
  assert (H : inject_Z z < inject_Z (k + 1)).
  { rewrite inject_Z_plus. change (inject_Z 1) with 1. lra. }
  rewrite <- Zlt_Qlt in H. lia.
Qed.

(** The stale-data warning appears exactly when the last measurement is more
    than two hours old.  From 48 hours on the age is shown in days, at least
    2 and within half a day of the true age; below, in hours, between 2 and
    48 and within 0.55 hours of the true age. *)
Theorem stale_warning_bounds (now latest_measurement : Timestamp) :
  let gap := (instant now - instant latest_measurement)%Z in
  let hours := inject_Z gap / 3600 in
  (stale_warning now latest_measurement = None <-> (gap <= 7200)%Z)
  /\ (forall n, stale_warning now latest_measurement = Some (Days n) ->
        (172800 <= gap)%Z /\ (2 <= n)%Z
        /\ inject_Z n - hours / 24 <= 1 # 2
        /\ hours / 24 - inject_Z n <= 1 # 2)
  /\ (forall n, stale_warning now latest_measurement = Some (Hours n) ->
        (7200 < gap < 172800)%Z /\ (2 <= n <= 48)%Z
        /\ inject_Z n - hours <= 11 # 20
        /\ hours - inject_Z n <= 11 # 20).
Proof.
  cbv zeta. unfold stale_warning.
  set (gap := (instant now - instant latest_measurement)%Z).
  set (h := inject_Z gap / 3600).
  assert (Hh : h * 3600 == inject_Z gap) by (unfold h; field).
  destruct (Z.ltb_spec (2 * 3600) gap) as [Hg|Hg].
  - assert (Hgq : 7200 < inject_Z gap).
    { change 7200 with (inject_Z 7200). rewrite <- Zlt_Qlt. lia. }
    split; [split; [discriminate|lia]|].
    unfold time_ago. fold h.
    destruct (Qle_bool 48 h) eqn:E.
    + apply Qle_bool_iff in E.
      split; [|intros n H; discriminate].
      intros n H. injection H as <-.
      destruct (round_half_even_near (h / 24)) as [N1 N2].
      assert (Hd : h / 24 * 24 == h) by field.
      split.
      { assert (Hq : inject_Z 172800 <= inject_Z gap).
        { change (inject_Z 172800) with 172800. lra. }
        rewrite <- Zle_Qle in Hq. exact Hq. }
      split; [|split; assumption].
      apply (Z_of_Q_lower _ 2 (h / 24 - (1 # 2))).
      * change (inject_Z 2) with 2. lra.
      * lra.
    + assert (E' : h < 48).
      { destruct (Qlt_le_dec h 48) as [H|H]; [exact H|].
        apply Qle_bool_iff in H. congruence. }
      split; [intros n H; discriminate|].
      intros n H. injection H as <-.
      set (t := Components.round_half_even (h * 10)).
      destruct (round_half_even_near (h * 10)) as [T1 T2]. fold t in T1, T2.
      destruct (round_half_even_near (inject_Z t / 10)) as [N1 N2].
      assert (Ht : inject_Z t / 10 * 10 == inject_Z t) by field.
      split.
      { split; [lia|].
        assert (Hq : inject_Z gap < inject_Z 172800).
        { change (inject_Z 172800) with 172800. lra. }
        rewrite <- Zlt_Qlt in Hq. exact Hq. }
      assert (Ht20 : (20 <= t)%Z).
      { apply (Z_of_Q_lower _ 20 (h * 10 - (1 # 2))).
        - change (inject_Z 20) with 20. lra.
        - lra. }
      assert (Ht480 : (t <= 480)%Z).
      { apply (Z_of_Q_upper _ 480 (h * 10 + (1 # 2))).
        - change (inject_Z 480) with 480. lra.
        - lra. }
      assert (Q20 : 20 <= inject_Z t).
      { change 20 with (inject_Z 20). rewrite <- Zle_Qle. exact Ht20. }
      assert (Q480 : inject_Z t <= 480).
      { change 480 with (inject_Z 480). rewrite <- Zle_Qle. exact Ht480. }
      split; [split|split].
      * apply (Z_of_Q_lower _ 2 (inject_Z t / 10 - (1 # 2))).
        -- change (inject_Z 2) with 2. lra.
        -- lra.
      * apply (Z_of_Q_upper _ 48 (inject_Z t / 10 + (1 # 2))).
        -- change (inject_Z 48) with 48. lra.
        -- lra.
      * lra.
      * lra.
  - split; [split; [lia|reflexivity]|].
    split; intros n H; discriminate.
Qed.

End StaleData.

(** * Further properties of the 24-hour section *)

Section DiurnalCoverage.

Import Frame Charts Sections.

Lemma all_hours_NoDup : NoDup all_hours.
Proof.
  unfold all_hours. apply Finite.Injective_map_NoDup.
  - intros a b H. lia.
  - apply seq_NoDup.
Qed.

Lemma present_hours_In (df : DataFrame) (h : Z) :
  In h (present_hours df) <-> exists r, In r df /\ hour (timestamp r) = h.
Proof.
  unfold present_hours. rewrite nodup_In, in_map_iff.
  split; intros (r & A & B); exists r; auto.
Qed.

(** The coverage warning under the 24-hour charts is absent exactly when
    every hour of day from 0 to 23 has at least one row; the number of
    hours with data is the number of distinct hours present. *)
Theorem coverage_warning_iff (df : DataFrame) :
  (Dashboard.coverage_warning (missing_hours df) = false
   <-> forall h, 0 <= h < 24 ->
         exists r, In r df /\ hour (timestamp r) = h)
  /\ Dashboard.hours_with_data (missing_hours df)
     = Z.of_nat (List.length (present_hours df)).
Proof.
  assert (Hm : missing_hours df
               = 24 - Z.of_nat (List.length (present_hours df))).
  { destruct df; reflexivity. }
  assert (Hincl : incl (present_hours df) all_hours).
  { intros h Hh. apply present_hours_In in Hh.
    destruct Hh as (r & _ & <-). apply hour_in_all_hours. }
  assert (Hnd : NoDup (present_hours df)) by apply NoDup_nodup.
  assert (Hle : (List.length (present_hours df) <= 24)%nat)
    by apply present_hours_bound.
  split; [|unfold Dashboard.hours_with_data; rewrite Hm; lia].
  unfold Dashboard.coverage_warning. rewrite Hm. split.
  - intros Hw h Hh.
    destruct (Z.ltb_spec 0 (24 - Z.of_nat (List.length (present_hours df))));
      [discriminate|].
    assert (Hall : incl all_hours (present_hours df)).
    { apply NoDup_length_incl; [exact Hnd| |exact Hincl].
      change (List.length all_hours) with 24%nat. lia. }
    apply present_hours_In, Hall.
    unfold all_hours. apply in_map_iff. exists (Z.to_nat h).
    split; [lia|]. apply in_seq. lia.
  - intros Hall.
    assert (Hi : incl all_hours (present_hours df)).
    { intros h Hh. apply present_hours_In, Hall.
      unfold all_hours in Hh. apply in_map_iff in Hh.
      destruct Hh as (n & <- & Hn). apply in_seq in Hn. lia. }
    pose proof (NoDup_incl_length all_hours_NoDup Hi) as Hl.
    change (List.length all_hours) with 24%nat in Hl.
    destruct (Z.ltb_spec 0 (24 - Z.of_nat (List.length (present_hours df))));
      [lia|reflexivity].
Qed.

(** The grouped statistics in explicit form: one record per distinct key,
    in ascending order of the key. *)
Lemma agg_explicit (key : row -> Z) (m : Metric)
  (spec : list (string * (list cell -> cell))) (df : DataFrame) :
  agg m spec (groupby Z.compare key df)
  = map (fun k =>
           (k, map (fun na =>
                      (fst na,
                       snd na (map (column m)
                                 (filter (fun r => key r =? k) df))))
                   spec))
        (unique_sorted Z.compare (map key df)).
Proof.
  unfold agg, groupby. rewrite map_map. apply map_ext. intros k. simpl.
  f_equal. apply map_ext. intros na. f_equal. f_equal. f_equal.
  apply filter_ext. intros r. apply same_key_Z.
Qed.

Lemma Z_keys_sorted (l : list Z) :
  StronglySorted Z.lt (unique_sorted Z.compare l).
Proof.
  pose proof (unique_sorted_sorted Z.compare Z.compare_eq_iff
                Z_compare_antisym Z_compare_trans l) as H.
  induction H as [|k ks Hs IH Hall]; constructor; [exact IH|].
  eapply Forall_impl; [|exact Hall]. intros a Ha. unfold key_lt in Ha.
  apply Z.compare_lt_iff. exact Ha.
Qed.

(** The three results of the 24-hour section agree: the band chart has one
    record per hour of day present, in ascending order of the hour, the
    endpoint chart covers the same hours, and the number of records and the
    missing-hour count add up to 24.  On an empty frame both charts are the
    placeholder and 24 hours are missing. *)
Theorem diurnal_section_consistent (bracketed_ok nfkc_ok : string -> bool)
  (df : DataFrame) (m : Metric) :
  match render_24h_section bracketed_ok nfkc_ok df m with
  | (Layers stats, Layers (points, _), missing) =>
      df <> []
      /\ Z.of_nat (List.length stats) + missing = 24
      /\ StronglySorted Z.lt (map fst stats)
      /\ (forall h, In h (map fst stats) <-> In h (present_hours df))
      /\ (forall h, In h (map bucket points) <-> In h (present_hours df))
  | (NoData, NoData, missing) => df = [] /\ missing = 24
  | _ => False
  end.
Proof.
  unfold render_24h_section, create_24h_endpoint_lines_chart, endpoint_lines,
    create_24h_median_band_chart.
  destruct df as [|r0 df']; [split; reflexivity|].
  set (df := r0 :: df').
  rewrite agg_explicit.
  set (keys := unique_sorted Z.compare
                 (map (fun r => hour (timestamp r)) df)).
  assert (Hkeys : forall h, In h keys <-> In h (present_hours df)).
  { intros h. unfold keys.
    rewrite (unique_sorted_In Z.compare Z.compare_eq_iff).
    unfold present_hours. rewrite nodup_In. reflexivity. }
  assert (Hlen : List.length keys = List.length (present_hours df)).
  { apply Permutation_length, NoDup_Permutation.
    - apply (unique_sorted_NoDup Z.compare Z.compare_eq_iff
               Z_compare_antisym Z_compare_trans).
    - apply NoDup_nodup.
    - exact Hkeys. }
  split; [discriminate|]. rewrite length_map, map_map. simpl fst.
  rewrite map_id. split.
  { change (missing_hours df)
      with (24 - Z.of_nat (List.length (present_hours df))).
    rewrite Hlen. lia. }
  split; [apply Z_keys_sorted|]. split; [exact Hkeys|].
  intros h. unfold grouped_df. rewrite map_map. simpl bucket.
  rewrite <- Hkeys. unfold keys.
  rewrite (unique_sorted_In Z.compare Z.compare_eq_iff).
  rewrite !in_map_iff. split.
  - intros ([[b e] g] & Hb & Hg). simpl in Hb. subst b.
    destruct (groupby_In cmp_pair cmp_pair_eq _ df (h, e) g Hg)
      as (_ & Hmem & Hne).
    destruct g as [|r g']; [contradiction|].
    destruct (proj1 (Hmem r) (or_introl eq_refl)) as [Hr Hk].
    exists r. injection Hk as Hk _. auto.
  - intros (r & Hr & Hin).
    set (k := (hour (timestamp r), endpoint r)).
    exists (k, filter (fun r' => same_key cmp_pair
                         (hour (timestamp r'), endpoint r') k) df).
    split; [simpl; exact Hr|].
    unfold groupby. apply in_map_iff. exists k. split; [reflexivity|].
    apply (unique_sorted_In cmp_pair cmp_pair_eq). apply in_map_iff.
    exists r. auto.
Qed.

End DiurnalCoverage.

(** * Further properties of the bucket statistics *)

Section BucketStatistics.

Import Frame Charts Sections.
Local Open Scope Q_scope.

(** Present values of a frame, bucket by bucket. *)
Lemma list_sum_pointwise {A} (f g : A -> nat) (l : list A) :
  list_sum (map (fun k => (f k + g k)%nat) l)
  = (list_sum (map f l) + list_sum (map g l))%nat.
Proof. induction l as [|a l IH]; simpl; [reflexivity|]. rewrite IH. lia. Qed.

Lemma list_sum_indicator (x : Z) (w : nat) (ks : list Z) :
  NoDup ks -> In x ks ->
  list_sum (map (fun k => if (x =? k)%Z then w else O) ks) = w.
Proof.
  induction 1 as [|k ks Hnotin Hnd IH]; intros Hin; [contradiction|].
  simpl. destruct (Z.eqb_spec x k) as [->|Hne].
  - assert (E : list_sum (map (fun k0 => if (k =? k0)%Z then w else O) ks)
                = O).
    { clear IH Hin Hnd. induction ks as [|a ks IH]; [reflexivity|].
      simpl. destruct (Z.eqb_spec k a) as [->|_].
      - exfalso. apply Hnotin. left. reflexivity.
      - apply IH. intros H. apply Hnotin. right. exact H. }
    rewrite E. lia.
  - destruct Hin as [->|Hin]; [contradiction|]. rewrite IH by exact Hin.
    reflexivity.
Qed.

Lemma present_partition (key : row -> Z) (m : Metric) (ks : list Z)
  (df : DataFrame) :
  NoDup ks -> (forall r, In r df -> In (key r) ks) ->
  list_sum (map (fun k =>
                   List.length
                     (dropna (map (column m)
                                (filter (fun r => (key r =? k)%Z) df))))
                ks)
  = List.length (dropna (map (column m) df)).
Proof.
  intros Hnd. induction df as [|r df IH]; intros Hin.
  - simpl. clear Hnd Hin. induction ks as [|k ks IHk]; [reflexivity|].
    simpl. exact IHk.
  - set (w := List.length (dropna [column m r])).
    assert (E : forall k,
              List.length (dropna (map (column m)
                             (filter (fun r0 => (key r0 =? k)%Z) (r :: df))))
              = ((if (key r =? k)%Z then w else O)
                 + List.length (dropna (map (column m)
                                  (filter (fun r0 => (key r0 =? k)%Z) df))))%nat).
    { intros k. simpl filter. unfold w.
      destruct (key r =? k)%Z; simpl; destruct (column m r); reflexivity. }
    rewrite (map_ext _ _ E), list_sum_pointwise.
    rewrite IH by (intros r' Hr'; apply Hin; right; exact Hr').
    rewrite list_sum_indicator;
      [|exact Hnd|apply Hin; left; reflexivity].
    unfold w. simpl. destruct (column m r); reflexivity.
Qed.

Lemma sum_q_of_nat {A} (f : A -> nat) (l : list A) :
  sum_q (map (fun k => of_nat (f k)) l) == of_nat (list_sum (map f l)).
Proof.
  induction l as [|a l IH]; simpl; [reflexivity|].
  rewrite IH. unfold of_nat. rewrite Nat2Z.inj_add, inject_Z_plus.
  reflexivity.
Qed.

(** The sample counts of the 24-hour band chart add up to the number of
    rows of the frame whose metric value is present: every present value is
    counted in exactly one hour, and rows with a missing value in none. *)
Theorem diurnal_counts_total (df : DataFrame) (m : Metric) :
  match create_24h_median_band_chart df m with
  | NoData => df = []
  | Layers stats =>
      sum_q (map (fun ks => count_of (snd ks)) stats)
      == of_nat (List.length (dropna (map (column m) df)))
      /\ Forall (fun ks =>
                   count_of (snd ks)
                   == of_nat (List.length
                                (dropna (map (column m)
                                   (filter (fun r =>
                                      (hour (timestamp r) =? fst ks)%Z) df)))))
                stats
  end.
Proof.
  destruct df as [|r0 df']; [reflexivity|].
  set (df := r0 :: df').
  unfold create_24h_median_band_chart. fold df. rewrite agg_explicit.
  set (keys := unique_sorted Z.compare
                 (map (fun r => hour (timestamp r)) df)).
  split.
  - rewrite map_map. simpl snd.
    rewrite <- (present_partition (fun r => hour (timestamp r)) m keys df).
    + rewrite <- sum_q_of_nat. reflexivity.
    + apply (unique_sorted_NoDup Z.compare Z.compare_eq_iff
               Z_compare_antisym Z_compare_trans).
    + intros r Hr. unfold keys.
      apply (unique_sorted_In Z.compare Z.compare_eq_iff).
      apply (in_map (fun r0 => hour (timestamp r0))). exact Hr.
  - apply Forall_forall. intros [k s] Hin. apply in_map_iff in Hin.
    destruct Hin as (k' & E & _). injection E as -> <-. reflexivity.
Qed.

Lemma sort_q_In (l : list Q) (x : Q) : In x (sort_q l) -> In x l.
Proof.
  induction l as [|a l IH]; simpl; [tauto|].
  intros H. apply insert_q_In in H. destruct H as [->|H]; auto.
Qed.

(** A quantile lies between any two bounds of the values present. *)
Lemma quantile_within (q : Q) (l : list cell) (lo hi a : Q) :
  0 <= q -> q <= 1 ->
  (forall v, In v (dropna l) -> lo <= v /\ v <= hi) ->
  quantile q l = Some a -> lo <= a /\ a <= hi.
Proof.
  intros Hq0 Hq1 Hb Ha.
  destruct (dropna l) as [|x0 xs0] eqn:E.
  { unfold quantile in Ha. rewrite E in Ha. discriminate. }
  assert (Hne : dropna l <> []) by (rewrite E; discriminate).
  rewrite <- E in Hb. rewrite (quantile_some q l Hne) in Ha.
  injection Ha as <-.
  set (xs := sort_q (dropna l)) in *.
  assert (Hs : StronglySorted Qle xs) by apply sort_q_sorted.
  assert (Hlen : (1 <= List.length xs)%nat).
  { unfold xs. rewrite sort_q_length, E. simpl. lia. }
  assert (Hxs : xs <> []).
  { intros X. rewrite X in Hlen. simpl in Hlen. lia. }
  assert (Hp : 0 <= of_nat (List.length xs - 1)).
  { unfold of_nat. change 0 with (inject_Z 0). rewrite <- Zle_Qle. lia. }
  assert (P0 : 0 <= q * of_nat (List.length xs - 1)) by nra.
  assert (P1 : q * of_nat (List.length xs - 1)
               <= of_nat (List.length xs - 1)) by nra.
  destruct (interpolate_bounds xs _ Hs Hxs P0 P1) as [L U].
  destruct (floor_index _ _ P0 P1) as (Hlo & _ & _).
  assert (In1 : In (nth (Z.to_nat (Qfloor (q * of_nat (List.length xs - 1))))
                      xs 0) (dropna l)).
  { apply sort_q_In. fold xs. apply nth_In. lia. }
  assert (In2 : In (nth (Nat.min
                           (Z.to_nat (Qfloor (q * of_nat (List.length xs - 1)))
                            + 1) (List.length xs - 1)) xs 0) (dropna l)).
  { apply sort_q_In. fold xs. apply nth_In. lia. }
  destruct (Hb _ In1) as [B1 _]. destruct (Hb _ In2) as [_ B2].
  split; lra.
Qed.

(** The band of a bucket lies inside the range of its values: in both band
    charts the 25th percentile is not below, and the 75th not above, any
    bounds of the metric values present in the bucket. *)
Theorem band_within_bucket_range (df : DataFrame) (m : Metric) (lo hi : Q)
  (Hbounds : forall r v, In r df -> column m r = Some v ->
                         lo <= v /\ v <= hi) :
  match create_median_band_chart df m with
  | NoData => df = []
  | Layers stats =>
      Forall (fun ks => forall a c,
                Series_get (snd ks) "q25" = Some (Some a) ->
                Series_get (snd ks) "q75" = Some (Some c) ->
                lo <= a /\ a <= c /\ c <= hi) stats
  end
  /\ match create_24h_median_band_chart df m with
     | NoData => df = []
     | Layers stats =>
         Forall (fun ks => forall a c,
                   Series_get (snd ks) "q25" = Some (Some a) ->
                   Series_get (snd ks) "q75" = Some (Some c) ->
                   lo <= a /\ a <= c /\ c <= hi) stats
     end.
Proof.
  assert (Hbucket : forall (f : row -> bool) v,
            In v (dropna (map (column m) (filter f df))) ->
            lo <= v /\ v <= hi).
  { intros f v Hv.
    assert (Hex : exists r, In r df /\ column m r = Some v).
    { clear Hbounds. induction df as [|r df' IH]; [contradiction|].
      simpl in Hv. destruct (f r).
      - simpl in Hv. destruct (column m r) as [x|] eqn:Ec.
        + destruct Hv as [<-|Hv].
          * exists r. split; [left; reflexivity|exact Ec].
          * destruct (IH Hv) as (r' & A & B). exists r'. split; auto.
            right. exact A.
        + destruct (IH Hv) as (r' & A & B). exists r'. split; auto.
          right. exact A.
      - destruct (IH Hv) as (r' & A & B). exists r'. split; auto.
        right. exact A. }
    destruct Hex as (r & Hr & Hc). exact (Hbounds r v Hr Hc). }
  assert (Hrec : forall xs a c,
            (forall v, In v (dropna xs) -> lo <= v /\ v <= hi) ->
            quantile q25 xs = Some a -> quantile q75 xs = Some c ->
            lo <= a /\ a <= c /\ c <= hi).
  { intros xs a c Hb Ha Hc.
    assert (A : lo <= a /\ a <= hi).
    { apply (quantile_within q25 xs); try assumption; unfold q25; lra. }
    assert (C : lo <= c /\ c <= hi).
    { apply (quantile_within q75 xs); try assumption; unfold q75; lra. }
    destruct (stats_band xs) as [Hsome _].
    destruct (dropna xs) as [|x0 l0] eqn:E.
    { unfold quantile in Ha. rewrite E in Ha. discriminate. }
    destruct Hsome as (a' & b' & c' & A' & _ & C' & L1 & L2);
      [discriminate|].
    assert (a' = a) by congruence. assert (c' = c) by congruence. subst.
    split; [apply A|]. split; [lra|apply C]. }
  assert (Hall : forall (key : row -> Z)
                   (spec : list (string * (list cell -> cell))),
            (forall xs, Series_get (map (fun na => (fst na, snd na xs)) spec)
                          "q25" = Some (quantile q25 xs)) ->
            (forall xs, Series_get (map (fun na => (fst na, snd na xs)) spec)
                          "q75" = Some (quantile q75 xs)) ->
            Forall (fun ks => forall a c,
                      Series_get (snd ks) "q25" = Some (Some a) ->
                      Series_get (snd ks) "q75" = Some (Some c) ->
                      lo <= a /\ a <= c /\ c <= hi)
                   (agg m spec (groupby Z.compare key df))).
  { intros key spec G1 G3. rewrite agg_explicit.
    apply Forall_forall. intros [k s] Hin. apply in_map_iff in Hin.
    destruct Hin as (k' & E & _). injection E as -> <-.
    intros a c Ha Hc. simpl snd in Ha, Hc. rewrite G1 in Ha.
    rewrite G3 in Hc. injection Ha as Ha. injection Hc as Hc.
    eapply Hrec; [apply Hbucket|exact Ha|exact Hc]. }
  split.
  - unfold create_median_band_chart.
    destruct df as [|r0 df']; [reflexivity|].
    apply Hall; reflexivity.
  - unfold create_24h_median_band_chart.
    destruct df as [|r0 df']; [reflexivity|].
    apply Hall; reflexivity.
Qed.

Lemma band_within_bucket_range_witness :
  (forall r v, In r five_readings -> column Download r = Some v ->
               1 <= v /\ v <= 9)
  /\ match create_median_band_chart five_readings Download with
     | NoData => False
     | Layers stats =>
         Forall (fun ks => forall a c,
                   Series_get (snd ks) "q25" = Some (Some a) ->
                   Series_get (snd ks) "q75" = Some (Some c) ->
                   1 <= a /\ a <= c /\ c <= 9) stats
     end.
Proof.
  assert (H : forall r v, In r five_readings -> column Download r = Some v ->
                          1 <= v /\ v <= 9).
  { intros r v Hr Hv. unfold five_readings in Hr. simpl in Hr.
    repeat (destruct Hr as [<-|Hr];
            [simpl in Hv; injection Hv as <-; split; discriminate|]).
    contradiction. }
  split; [exact H|].
  destruct (band_within_bucket_range five_readings Download 1 9 H) as [B _].
  destruct (create_median_band_chart five_readings Download);
    [discriminate B|exact B].
Defined.

End BucketStatistics.

(** * Further properties of the endpoint series *)

Section EndpointSeries.

Import Frame Charts Sections.

(** The buckets of the endpoint points are the buckets of the rows. *)
Lemma points_buckets (bracketed_ok nfkc_ok : string -> bool)
  (bucket_of : Timestamp -> Z) (df : DataFrame) (m : Metric) (b : Z) :
  In b (map bucket (grouped_df bracketed_ok nfkc_ok bucket_of df m))
  <-> exists r, In r df /\ bucket_of (timestamp r) = b.
Proof.
  unfold grouped_df, groupby. rewrite !map_map. simpl bucket.
  rewrite in_map_iff. split.
  - intros (k & Hk & Hin).
    apply (proj1 (unique_sorted_In cmp_pair cmp_pair_eq _ _)) in Hin.
    apply in_map_iff in Hin. destruct Hin as (r & Hr & Hdf).
    exists r. split; [exact Hdf|]. subst k. exact Hk.
  - intros (r & Hr & Hb).
    exists (bucket_of (timestamp r), endpoint r). split; [exact Hb|].
    apply (unique_sorted_In cmp_pair cmp_pair_eq). apply in_map_iff.
    exists r. auto.
Qed.

Lemma points_length (bracketed_ok nfkc_ok : string -> bool)
  (bucket_of : Timestamp -> Z) (df : DataFrame) (m : Metric) :
  (List.length (unique_sorted Z.compare
                  (map (fun r => bucket_of (timestamp r)) df))
   <= List.length (grouped_df bracketed_ok nfkc_ok bucket_of df m)
   <= List.length df)%nat.
Proof.
  set (keys2 := unique_sorted cmp_pair
                  (map (fun r => (bucket_of (timestamp r), endpoint r)) df)).
  assert (Hlen : List.length (grouped_df bracketed_ok nfkc_ok bucket_of df m)
                 = List.length keys2).
  { unfold grouped_df, groupby. rewrite !length_map. reflexivity. }
  rewrite Hlen. split.
  - rewrite <- (length_map fst keys2). apply NoDup_incl_length.
    + apply (unique_sorted_NoDup Z.compare Z.compare_eq_iff
               Z_compare_antisym Z_compare_trans).
    + intros b Hb. apply (proj1 (unique_sorted_In Z.compare Z.compare_eq_iff _ _)) in Hb.
      apply in_map_iff in Hb. destruct Hb as (r & <- & Hr).
      apply in_map_iff. exists (bucket_of (timestamp r), endpoint r).
      split; [reflexivity|].
      apply (unique_sorted_In cmp_pair cmp_pair_eq). apply in_map_iff.
      exists r. auto.
  - rewrite <- (length_map (fun r => (bucket_of (timestamp r), endpoint r)) df).
    apply NoDup_incl_length.
    + apply (unique_sorted_NoDup cmp_pair cmp_pair_eq cmp_pair_antisym
               cmp_pair_trans).
    + intros k Hk. apply (proj1 (unique_sorted_In cmp_pair cmp_pair_eq _ _)) in Hk.
      exact Hk.
Qed.

(** The two charts of the long-term section agree: the band chart has one
    record per distinct timestamp, in ascending order; the endpoint chart
    has points for exactly the same timestamps, at least one per record and
    no more than there are rows.  On an empty frame both are the
    placeholder. *)
Theorem longterm_section_consistent (bracketed_ok nfkc_ok : string -> bool)
  (df : DataFrame) (m : Metric) :
  match render_longterm_section bracketed_ok nfkc_ok df m with
  | (Layers stats, Layers (points, _)) =>
      df <> []
      /\ StronglySorted Z.lt (map fst stats)
      /\ (forall t, In t (map fst stats)
                    <-> exists r, In r df /\ instant (timestamp r) = t)
      /\ (forall t, In t (map bucket points) <-> In t (map fst stats))
      /\ (List.length stats <= List.length points <= List.length df)%nat
  | (NoData, NoData) => df = []
  | _ => False
  end.
Proof.
  unfold render_longterm_section, create_endpoint_lines_chart, endpoint_lines,
    create_median_band_chart.
  destruct df as [|r0 df']; [reflexivity|].
  set (df := r0 :: df').
  rewrite agg_explicit.
  set (keys := unique_sorted Z.compare
                 (map (fun r => instant (timestamp r)) df)).
  assert (Hkeys : forall t, In t keys
                    <-> exists r, In r df /\ instant (timestamp r) = t).
  { intros t. unfold keys.
    rewrite (unique_sorted_In Z.compare Z.compare_eq_iff), in_map_iff.
    split; intros (r & A & B); exists r; auto. }
  split; [discriminate|]. rewrite length_map, map_map. simpl fst.
  rewrite map_id.
  split; [apply Z_keys_sorted|]. split; [exact Hkeys|]. split.
  - intros t. rewrite points_buckets, Hkeys. reflexivity.
  - apply (points_length bracketed_ok nfkc_ok instant df m).
Qed.

(** Every point of an endpoint chart has a colour: the legend lists the
    labels of the points, each once and in ascending order, and the point
    whose label stands at position [i] of the legend is drawn in the
    palette colour [i mod 10]. *)
Theorem endpoint_points_coloured (bracketed_ok nfkc_ok : string -> bool)
  (bucket_of : Timestamp -> Z) (df : DataFrame) (m : Metric) :
  match endpoint_lines bracketed_ok nfkc_ok bucket_of df m with
  | NoData => df = []
  | Layers (points, scale) =>
      StronglySorted (key_lt String.compare) (domain scale)
      /\ NoDup (domain scale)
      /\ (forall l, In l (domain scale)
                    <-> exists p, In p points /\ label p = l)
      /\ Forall (fun p =>
                   exists i c,
                     nth_error (domain scale) i = Some (label p)
                     /\ color_of scale (label p) = Some c
                     /\ nth_error MAGENTA_PALETTE (i mod 10) = Some c)
                points
  end.
Proof.
  unfold endpoint_lines. destruct df as [|r0 df']; [reflexivity|].
  set (df := r0 :: df'). cbv zeta.
  set (g := grouped_df bracketed_ok nfkc_ok bucket_of df m).
  assert (Hnd : NoDup (endpoints_of g)).
  { apply (unique_sorted_NoDup String.compare string_compare_eq
             String.compare_antisym string_compare_trans). }
  assert (Hin : forall l, In l (endpoints_of g)
                  <-> exists p, In p g /\ label p = l).
  { intros l. unfold endpoints_of.
    rewrite (unique_sorted_In String.compare string_compare_eq), in_map_iff.
    split; intros (p & A & B); exists p; auto. }
  split.
  { apply (unique_sorted_sorted String.compare string_compare_eq
             String.compare_antisym string_compare_trans). }
  split; [exact Hnd|]. split; [exact Hin|].
  apply Forall_forall. intros p Hp.
  assert (Hl : In (label p) (endpoints_of g)).
  { apply Hin. exists p. auto. }
  destruct (In_nth_error _ _ Hl) as [i Hi].
  assert (Hlt : (i < List.length (endpoints_of g))%nat).
  { apply nth_error_Some. congruence. }
  destruct (nth_error MAGENTA_PALETTE (i mod 10)) as [c|] eqn:Ec.
  - exists i, c. split; [exact Hi|]. split; [|exact Ec].
    unfold color_of. simpl domain.
    rewrite (lookup_nth _ _ Hnd i _ Hi).
    rewrite scale_range_nth by exact Hlt. exact Ec.
  - exfalso. apply nth_error_None in Ec. rewrite palette_length in Ec.
    pose proof (Nat.mod_upper_bound i 10). lia.
Qed.

(** The colour scale never runs out of colours: for any list of labels,
    also with repetitions, the range is as long as the domain, each of its
    entries is a palette colour, and the colours repeat with period 10. *)
Theorem color_scale_total (endpoints : list string) :
  let scale := _get_endpoint_color_scale endpoints in
  domain scale = endpoints
  /\ List.length (range scale) = List.length endpoints
  /\ Forall (fun c => In c MAGENTA_PALETTE) (range scale)
  /\ (forall i, (i + 10 < List.length endpoints)%nat ->
        nth_error (range scale) (i + 10) = nth_error (range scale) i).
Proof.
  cbv zeta. split; [reflexivity|]. split; [apply scale_range_length|].
  split.
  - apply Forall_forall. intros c Hc.
    destruct (In_nth_error _ _ Hc) as [i Hi].
    assert (Hlt : (i < List.length endpoints)%nat).
    { rewrite <- scale_range_length. apply nth_error_Some. congruence. }
    rewrite scale_range_nth in Hi by exact Hlt.
    eapply nth_error_In. exact Hi.
  - intros i Hi. rewrite !scale_range_nth by lia.
    replace ((i + 10) mod 10)%nat with (i mod 10)%nat; [reflexivity|].
    rewrite <- (Nat.Div0.add_mod_idemp_r i 10 10).
    rewrite Nat.Div0.mod_same, Nat.add_0_r. reflexivity.
Qed.

End EndpointSeries.

(** * Further properties of the endpoint labels *)

Section Labels.

Import Charts.
Local Open Scope string_scope.

Lemma first_part_no_dot (h : string) :
  Url.contains "."%char (first_part_of h) = false.
Proof.
  unfold first_part_of, Url.contains.
  induction h as [|c h IH]; cbn [Url.take_until Url.find]; [reflexivity|].
  destruct (Ascii.eqb "."%char c) eqn:E; cbn [Url.find]; [reflexivity|].
  rewrite Ascii.eqb_sym in E. rewrite E.
  destruct (Url.find "."%char (Url.take_until (Ascii.eqb "."%char) h));
    [discriminate|reflexivity].
Qed.

(** The label of an endpoint is empty only for the empty endpoint, and a
    label that differs from the raw endpoint is non-empty and contains no
    dot. *)
Theorem shorten_endpoint_label (bracketed_ok nfkc_ok : string -> bool)
  (url : string) :
  let short := _shorten_endpoint bracketed_ok nfkc_ok url in
  (short = "" <-> url = "")
  /\ (short <> url -> short <> "" /\ Url.contains "."%char short = false).
Proof.
  cbv zeta.
  assert (Hempty : _shorten_endpoint bracketed_ok nfkc_ok "" = "")
    by reflexivity.
  destruct (String.eqb_spec url "") as [->|Hne].
  { rewrite Hempty. split; [tauto|]. intros H. contradiction. }
  unfold _shorten_endpoint.
  destruct (Url.urlparse_netloc bracketed_ok nfkc_ok url) as [netloc|].
  - cbv zeta.
    set (hostname := if (netloc =? "")%string then url else netloc).
    destruct (String.eqb_spec (first_part_of hostname) "") as [E|E].
    + split; [tauto|]. intros H. contradiction.
    + split.
      * split; [intros H; contradiction|intros H; contradiction].
      * intros _. split; [exact E|apply first_part_no_dot].
  - split; [tauto|]. intros H. contradiction.
Qed.

End Labels.

(** * Further properties of the latest-run summary *)

Section SummaryExtras.

Import Frame Components Cards.
Local Open Scope Q_scope.

Lemma sorted_app_le {A} (R : A -> A -> Prop) (l1 l2 : list A) :
  StronglySorted R (l1 ++ l2) ->
  forall a b, In a l1 -> In b l2 -> R a b.
Proof.
  induction l1 as [|x l1 IH]; simpl; intros Hs a b Ha Hb; [contradiction|].
  inversion Hs as [|? ? Hs' Hall]; subst.
  destruct Ha as [<-|Ha].
  - rewrite Forall_forall in Hall. apply Hall, in_or_app. right. exact Hb.
  - apply IH; assumption.
Qed.

(** The sorted frame ends with the previous run followed by the latest
    run. *)
Lemma summary_decomposition (df : DataFrame) (N : Z) :
  df <> [] ->
  exists s pre,
    render_latest_summary df N = Some s
    /\ Permutation df (df_sorted s)
    /\ StronglySorted ts_le (df_sorted s)
    /\ latest_run s <> []
    /\ df_sorted s = pre ++ previous_run s ++ latest_run s
    /\ latest_timestamp s = max_timestamp (map timestamp (latest_run s))
    /\ latest s = mean_numeric (latest_run s)
    /\ previous s = match previous_run s with
                    | [] => []
                    | _ => mean_numeric (previous_run s)
                    end.
Proof.
  intros Hne.
  destruct (render_latest_summary_some df N Hne)
    as (s & Hs & Hsorted & Hn & Hl & Hlat & Ht & Hp & Hprev).
  assert (Hlen : List.length (df_sorted s) = List.length df).
  { rewrite Hsorted. apply sort_values_length. }
  assert (Hpos : (1 <= List.length df)%nat).
  { destruct df; [contradiction|simpl; lia]. }
  assert (Hrange : (1 <= run_size s <= Z.of_nat (List.length df))%Z) by lia.
  assert (Hlatest : latest_run s
            = skipn (List.length df - Z.to_nat (run_size s)) (df_sorted s)).
  { rewrite Hl, slice_last by (rewrite Hlen; lia). rewrite Hlen.
    reflexivity. }
  assert (Hlne : latest_run s <> []).
  { intros E. apply (f_equal (@List.length _)) in E.
    rewrite Hlatest, length_skipn, Hlen in E. simpl in E. lia. }
  destruct (Z.geb_spec (Z.of_nat (List.length df)) (run_size s * 2))
    as [H2|H2].
  - exists s, (firstn (List.length df - 2 * Z.to_nat (run_size s))
                      (df_sorted s)).
    assert (Hpr : previous_run s
              = firstn (Z.to_nat (run_size s))
                  (skipn (List.length df - 2 * Z.to_nat (run_size s))
                         (df_sorted s))).
    { rewrite Hp.
      destruct (Z.geb_spec (Z.of_nat (List.length df)) (run_size s * 2));
        [|lia].
      rewrite slice_before_last by (rewrite ?Hlen; lia). rewrite Hlen.
      reflexivity. }
    split; [exact Hs|]. split; [rewrite Hsorted; apply sort_values_perm|].
    split; [rewrite Hsorted; apply sort_values_sorted|].
    split; [exact Hlne|]. split; [|auto].
    rewrite Hpr, Hlatest.
    set (n := Z.to_nat (run_size s)) in *.
    set (l := df_sorted s) in *.
    replace (List.length df - n)%nat
      with (n + (List.length df - 2 * n))%nat by lia.
    rewrite <- (skipn_skipn n (List.length df - 2 * n) l).
    rewrite (firstn_skipn n), (firstn_skipn (List.length df - 2 * n)).
    reflexivity.
  - exists s, (firstn (List.length df - Z.to_nat (run_size s)) (df_sorted s)).
    assert (Hpr : previous_run s = []).
    { rewrite Hp.
      destruct (Z.geb_spec (Z.of_nat (List.length df)) (run_size s * 2));
        [lia|reflexivity]. }
    split; [exact Hs|]. split; [rewrite Hsorted; apply sort_values_perm|].
    split; [rewrite Hsorted; apply sort_values_sorted|].
    split; [exact Hlne|]. split; [|auto].
    rewrite Hpr, Hlatest. simpl. rewrite firstn_skipn. reflexivity.
Qed.

(** The time shown for the latest measurement is the newest timestamp of
    the whole frame, whatever the run size: it belongs to a row of the
    frame and no row is later. *)
Theorem latest_timestamp_is_newest (df : DataFrame) (N : Z)
  (Hne : df <> []) :
  exists s t,
    render_latest_summary df N = Some s
    /\ latest_timestamp s = Some t
    /\ (exists r, In r df /\ timestamp r = t)
    /\ Forall (fun r => (instant (timestamp r) <= instant t)%Z) df.
Proof.
  destruct (summary_decomposition df N Hne)
    as (s & pre & Hs & Hperm & Hsorted & Hlne & Hdec & Ht & _).
  destruct (max_timestamp_spec (map timestamp (latest_run s)))
    as (t & Ht1 & Ht2 & Ht3).
  { destruct (latest_run s); [contradiction|discriminate]. }
  exists s, t. split; [exact Hs|]. split; [congruence|].
  apply in_map_iff in Ht2. destruct Ht2 as (rt & Hrt & Hin).
  assert (Hrt_sorted : In rt (df_sorted s)).
  { rewrite Hdec. apply in_or_app. right. apply in_or_app. right.
    exact Hin. }
  split.
  - exists rt. split; [|exact Hrt].
    apply (Permutation_in _ (Permutation_sym Hperm)). exact Hrt_sorted.
  - apply Forall_forall. intros r Hr.
    apply (Permutation_in _ Hperm) in Hr.
    rewrite Hdec, app_assoc in Hr. apply in_app_or in Hr.
    destruct Hr as [Hr|Hr].
    + rewrite Hdec, app_assoc in Hsorted.
      pose proof (sorted_app_le _ _ _ Hsorted r rt Hr Hin) as Hle.
      unfold ts_le in Hle. rewrite Hrt in Hle. exact Hle.
    + rewrite Forall_map in Ht3. rewrite Forall_forall in Ht3.
      apply Ht3, Hr.
Qed.

Lemma latest_timestamp_is_newest_witness :
  df12 <> []
  /\ exists s,
       render_latest_summary df12 1 = Some s
       /\ latest_timestamp s = Some (cet 2024 1 5 12 12).
Proof.
  assert (Hne : df12 <> []) by discriminate.
  split; [exact Hne|].
  destruct (latest_timestamp_is_newest df12 1 Hne) as (s & t & Hs & Ht & _).
  exists s. split; [exact Hs|].
  vm_compute in Hs. injection Hs as <-. reflexivity.
Defined.

(** The previous run lies before the latest run: the two are adjacent,
    disjoint slices of the sorted frame, and no row of the previous run is
    later than any row of the latest run. *)
Theorem previous_run_precedes_latest (df : DataFrame) (N : Z)
  (Hne : df <> []) :
  exists s pre,
    render_latest_summary df N = Some s
    /\ df_sorted s = pre ++ previous_run s ++ latest_run s
    /\ Forall (fun p => Forall (fun l => ts_le p l) (latest_run s))
              (previous_run s)
    /\ (List.length (previous_run s) + List.length (latest_run s)
        <= List.length df)%nat.
Proof.
  destruct (summary_decomposition df N Hne)
    as (s & pre & Hs & Hperm & Hsorted & Hlne & Hdec & _).
  exists s, pre. split; [exact Hs|]. split; [exact Hdec|]. split.
  - apply Forall_forall. intros p Hp. apply Forall_forall. intros l Hl.
    rewrite Hdec, app_assoc in Hsorted.
    apply (sorted_app_le _ _ _ Hsorted); [|exact Hl].
    apply in_or_app. right. exact Hp.
  - rewrite (Permutation_length Hperm), Hdec, !length_app. lia.
Qed.

Lemma previous_run_precedes_latest_witness :
  df12 <> []
  /\ exists s,
       render_latest_summary df12 5 = Some s
       /\ Forall (fun p => Forall (fun l => ts_le p l) (latest_run s))
                 (previous_run s)
       /\ List.length (previous_run s) = 5%nat.
Proof.
  assert (Hne : df12 <> []) by discriminate.
  split; [exact Hne|].
  destruct (previous_run_precedes_latest df12 5 Hne)
    as (s & pre & Hs & _ & Hord & _).
  exists s. split; [exact Hs|]. split; [exact Hord|].
  vm_compute in Hs. injection Hs as <-. reflexivity.
Defined.








End SummaryExtras.

(** * Further properties of the cards and the table *)

Section CardsAndTable.

Import Components Cards.

Lemma series_get_nonempty (s : Series) (k : string) (v : cell) :
  Series_get s k = Some v -> s <> [].
Proof. destruct s; [discriminate|]. intros _. discriminate. Qed.

(** Against a positive previous mean the delta of a card carries the sign
    of the change: a minus sign when the latest mean is below the previous
    one, a plus sign when it is equal or above. *)
Theorem delta_sign (previous latest : Series) (key : string) (p l : Q)
  (Hprev : Series_get previous key = Some (Some p))
  (Hlatest : Series_get latest key = Some (Some l))
  (Hpos : (0 < p)%Q) :
  ((l < p)%Q ->
     exists rest, _percent_diff previous latest key
                  = Some (String "-"%char rest))
  /\ ((p <= l)%Q ->
        exists rest, _percent_diff previous latest key
                     = Some (String "+"%char rest)).
Proof.
  assert (Hpd : _percent_diff previous latest key
                = Some (format_percent ((l - p) / p * 100))).
  { unfold _percent_diff.
    destruct previous as [|e previous']; [discriminate|].
    rewrite Hprev, Hlatest.
    destruct (Qeq_bool p 0) eqn:E; [|reflexivity].
    apply Qeq_bool_iff in E. lra. }
  assert (Hinv : (0 < / p)%Q) by (apply Qinv_lt_0_compat; exact Hpos).
  rewrite Hpd. unfold format_percent, Qdiv. split; intros H.
  - destruct (Qlt_le_dec ((l - p) * / p * 100) 0) as [_|Hge].
    + eexists. reflexivity.
    + exfalso. nra.
  - destruct (Qlt_le_dec ((l - p) * / p * 100) 0) as [Hlt|_].
    + exfalso. nra.
    + eexists. reflexivity.
Qed.

Lemma delta_sign_witness :
  Series_get [("download", Some 50%Q)]%string "download" = Some (Some 50%Q)
  /\ (0 < 50)%Q
  /\ _percent_diff [("download", Some 50%Q)]%string
                   [("download", Some 40%Q)]%string "download"
     = Some "-20.0%"%string.
Proof.
  assert (Hp : Series_get [("download", Some 50%Q)]%string "download"
               = Some (Some 50%Q)) by reflexivity.
  assert (Hl : Series_get [("download", Some 40%Q)]%string "download"
               = Some (Some 40%Q)) by reflexivity.
  assert (Hpos : (0 < 50)%Q) by reflexivity.
  split; [exact Hp|]. split; [exact Hpos|].
  destruct (delta_sign _ _ _ _ _ Hp Hl Hpos) as [Hminus _].
  destruct (Hminus eq_refl) as [rest Hrest].
  rewrite Hrest. vm_compute in Hrest. injection Hrest as <-. reflexivity.
Defined.



End CardsAndTable.

(** * Further properties: row order, window width, label length *)

Section OrderIndependence.

Import Frame Components.

Lemma sorted_distinct_strict (l : list row) :
  StronglySorted ts_le l ->
  NoDup (map (fun r => instant (timestamp r)) l) ->
  StronglySorted
    (fun a b => instant (timestamp a) < instant (timestamp b)) l.
Proof.
  induction 1 as [|a l Hs IH Hall]; intros Hnd; [constructor|].
  simpl in Hnd. inversion Hnd as [|? ? Hnotin Hnd']; subst.
  constructor; [apply IH; exact Hnd'|].
  rewrite Forall_forall in *. intros b Hb. specialize (Hall b Hb).
  unfold ts_le in Hall.
  assert (instant (timestamp a) <> instant (timestamp b)); [|lia].
  intros E. apply Hnotin. rewrite E.
  apply (in_map (fun r => instant (timestamp r))). exact Hb.
Qed.

Lemma strictly_sorted_unique (l l' : list row) :
  Permutation l l' ->
  StronglySorted
    (fun a b => instant (timestamp a) < instant (timestamp b)) l ->
  StronglySorted
    (fun a b => instant (timestamp a) < instant (timestamp b)) l' ->
  l = l'.
Proof.
  revert l'. induction l as [|a l IH]; intros l' Hp Hs Hs'.
  - apply Permutation_nil in Hp. congruence.
  - destruct l' as [|b l'].
    { apply Permutation_sym, Permutation_nil in Hp. discriminate. }
    inversion Hs as [|? ? Hs1 Hall]; subst.
    inversion Hs' as [|? ? Hs1' Hall']; subst.
    rewrite Forall_forall in Hall, Hall'.
    assert (Hab : a = b).
    { assert (Ha : In a (b :: l'))
        by (apply (Permutation_in _ Hp); left; reflexivity).
      assert (Hb : In b (a :: l))
        by (apply (Permutation_in _ (Permutation_sym Hp)); left;
            reflexivity).
      destruct Ha as [Ha|Ha]; [congruence|].
      destruct Hb as [Hb|Hb]; [congruence|].
      specialize (Hall b Hb). specialize (Hall' a Ha). lia. }
    subst b. f_equal. apply IH; try assumption.
    apply Permutation_cons_inv in Hp. exact Hp.
Qed.

Lemma sort_values_order_independent (df df' : DataFrame) :
  Permutation df df' ->
  NoDup (map (fun r => instant (timestamp r)) df) ->
  sort_values df = sort_values df'.
Proof.
  intros Hp Hnd.
  assert (P1 : Permutation (sort_values df) (sort_values df')).
  { rewrite <- (sort_values_perm df), <- (sort_values_perm df'). exact Hp. }
  assert (N1 : NoDup (map (fun r => instant (timestamp r))
                          (sort_values df))).
  { eapply Permutation_NoDup; [|exact Hnd].
    apply Permutation_map, sort_values_perm. }
  assert (N2 : NoDup (map (fun r => instant (timestamp r))
                          (sort_values df'))).
  { eapply Permutation_NoDup; [|exact N1]. apply Permutation_map, P1. }
  apply strictly_sorted_unique; [exact P1| |].
  - apply sorted_distinct_strict; [apply sort_values_sorted|exact N1].
  - apply sorted_distinct_strict; [apply sort_values_sorted|exact N2].
Qed.

(** The summary does not depend on the order in which the rows arrive:
    two frames with the same rows in different order, no two rows sharing a
    timestamp, give the same summary. *)
Theorem summary_order_independent (df df' : DataFrame) (N : Z)
  (Hperm : Permutation df df')
  (Hdistinct : NoDup (map (fun r => instant (timestamp r)) df)) :
  render_latest_summary df N = render_latest_summary df' N.
Proof.
  pose proof (sort_values_order_independent df df' Hperm Hdistinct) as Hs.
  destruct df as [|r df]; destruct df' as [|r' df'].
  - reflexivity.
  - apply Permutation_nil in Hperm. discriminate.
  - apply Permutation_sym, Permutation_nil in Hperm. discriminate.
  - unfold render_latest_summary. rewrite Hs. reflexivity.
Qed.

Lemma summary_order_independent_witness :
  Permutation df12 (rev df12)
  /\ NoDup (map (fun r => instant (timestamp r)) df12)
  /\ render_latest_summary df12 5 = render_latest_summary (rev df12) 5.
Proof.
  assert (Hp : Permutation df12 (rev df12)) by apply Permutation_rev.
  assert (Hn : NoDup (map (fun r => instant (timestamp r)) df12)).
  { vm_compute.
    repeat (constructor; [simpl; intuition discriminate|]). constructor. }
  split; [exact Hp|]. split; [exact Hn|].
  apply (summary_order_independent df12 (rev df12) 5 Hp Hn).
Defined.

End OrderIndependence.

Section WindowWidth.

Import Charts App.

Lemma missing_hours_antitone (sub df : DataFrame) :
  incl sub df -> missing_hours df <= missing_hours sub.
Proof.
  intros Hincl.
  assert (Hm : forall d, missing_hours d
                 = 24 - Z.of_nat (List.length (present_hours d))).
  { intros d. destruct d; reflexivity. }
  rewrite !Hm.
  assert (Hl : (List.length (present_hours sub)
                <= List.length (present_hours df))%nat).
  { apply NoDup_incl_length; [apply NoDup_nodup|].
    intros h Hh. apply present_hours_In in Hh.
    destruct Hh as (r & Hr & <-). apply present_hours_In.
    exists r. split; [apply Hincl, Hr|reflexivity]. }
  lia.
Qed.

(** Widening the window never increases the number of missing hours: the
    rows of a window are rows of every wider window, so the wider window
    covers at least the same hours of day. *)
Theorem wider_window_fewer_missing_hours (df : DataFrame)
  (s e s' e' : Timestamp)
  (Hstart : instant s' <= instant s) (Hend : instant e <= instant e') :
  incl (chart_df df s e) (chart_df df s' e')
  /\ missing_hours (chart_df df s' e') <= missing_hours (chart_df df s e).
Proof.
  assert (Hincl : incl (chart_df df s e) (chart_df df s' e')).
  { intros r Hr. unfold chart_df in *. apply filter_In in Hr.
    destruct Hr as [Hin Hc]. apply filter_In. split; [exact Hin|].
    apply andb_true_iff in Hc. rewrite !Z.leb_le in Hc.
    apply andb_true_iff. rewrite !Z.leb_le. lia. }
  split; [exact Hincl|]. apply missing_hours_antitone, Hincl.
Qed.

Lemma wider_window_fewer_missing_hours_witness :
  instant (cet 2024 1 5 0 0) <= instant noon
  /\ instant noon <= instant (cet 2024 1 5 14 0)
  /\ missing_hours (chart_df five_readings (cet 2024 1 5 0 0)
                             (cet 2024 1 5 14 0))
     <= missing_hours (chart_df five_readings noon noon)
  /\ missing_hours (chart_df five_readings (cet 2024 1 5 0 0)
                             (cet 2024 1 5 14 0)) = 22
  /\ missing_hours (chart_df five_readings noon noon) = 23.
Proof.
  assert (H1 : instant (cet 2024 1 5 0 0) <= instant noon)
    by (vm_compute; discriminate).
  assert (H2 : instant noon <= instant (cet 2024 1 5 14 0))
    by (vm_compute; discriminate).
  split; [exact H1|]. split; [exact H2|].
  split; [|split; reflexivity].
  apply (wider_window_fewer_missing_hours five_readings noon noon
           (cet 2024 1 5 0 0) (cet 2024 1 5 14 0) H1 H2).
Defined.

End WindowWidth.

Section LabelLength.

Import Charts.

Lemma length_lstrip (s : string) :
  (String.length (Url.lstrip s) <= String.length s)%nat.
Proof.
  induction s as [|c s IH]; simpl; [lia|].
  destruct (Url.is_c0_or_space c); simpl; lia.
Qed.

Lemma length_remove_unsafe (s : string) :
  (String.length (Url.remove_unsafe s) <= String.length s)%nat.
Proof.
  induction s as [|c s IH]; simpl; [lia|].
  destruct (Url.unsafe c); simpl; lia.
Qed.

Lemma length_take_until (stop : ascii -> bool) (s : string) :
  (String.length (Url.take_until stop s) <= String.length s)%nat.
Proof.
  induction s as [|c s IH]; simpl; [lia|].
  destruct (stop c); simpl; lia.
Qed.

Lemma length_substring (n m : nat) (s : string) :
  (String.length (substring n m s) <= String.length s)%nat.
Proof.
  revert n m. induction s as [|c s IH]; intros n m.
  - destruct n, m; simpl; lia.
  - destruct n as [|n].
    + destruct m as [|m]; simpl; [lia|]. specialize (IH O m). lia.
    + simpl. specialize (IH n m). lia.
Qed.

Lemma length_strip_scheme (s : string) :
  (String.length (Url.strip_scheme s) <= String.length s)%nat.
Proof.
  unfold Url.strip_scheme.
  destruct (Url.find ":"%char s) as [[|i]|]; try lia.
  destruct s as [|c0 s']; [lia|].
  destruct (Url.is_ascii c0 && Url.is_alpha c0
            && Url.forallb Url.scheme_char
                 (substring 0 (S i) (String c0 s'))); [|lia].
  unfold Url.drop. apply length_substring.
Qed.

(** The label is a short form: it is never longer than the raw endpoint. *)
Theorem shorten_endpoint_not_longer (bracketed_ok nfkc_ok : string -> bool)
  (url : string) :
  (String.length (_shorten_endpoint bracketed_ok nfkc_ok url)
   <= String.length url)%nat.
Proof.
  unfold _shorten_endpoint.
  destruct (Url.urlparse_netloc bracketed_ok nfkc_ok url) as [netloc|] eqn:E;
    [|lia].
  cbv zeta.
  assert (Hn : (String.length netloc <= String.length url)%nat).
  { unfold Url.urlparse_netloc in E.
    set (u := Url.strip_scheme (Url.remove_unsafe (Url.lstrip url))) in E.
    assert (Hu : (String.length u <= String.length url)%nat).
    { unfold u. pose proof (length_strip_scheme
                              (Url.remove_unsafe (Url.lstrip url))).
      pose proof (length_remove_unsafe (Url.lstrip url)).
      pose proof (length_lstrip url). lia. }
    set (n := if String.eqb (substring 0 2 u) "//"
              then Url._splitnetloc u else ""%string) in E.
    assert (Hlen : (String.length n <= String.length u)%nat).
    { unfold n. destruct (String.eqb (substring 0 2 u) "//").
      - unfold Url._splitnetloc, Url.drop.
        pose proof (length_take_until Url.netloc_delim
                      (substring 2 (String.length u - 2) u)).
        pose proof (length_substring 2 (String.length u - 2) u). lia.
      - simpl. lia. }
    cbv zeta in E.
    destruct (xorb (Url.contains "["%char n) (Url.contains "]"%char n));
      [discriminate|].
    destruct (Url.contains "["%char n && Url.contains "]"%char n
              && negb (bracketed_ok n)); [discriminate|].
    destruct (negb (String.eqb n "") && negb (Url.forallb Url.is_ascii n)
              && negb (nfkc_ok n)); [discriminate|].
    injection E as <-. lia. }
  set (hostname := if String.eqb netloc "" then url else netloc).
  assert (Hh : (String.length hostname <= String.length url)%nat).
  { unfold hostname. destruct (String.eqb netloc ""); lia. }
  destruct (String.eqb (first_part_of hostname) ""); [lia|].
  unfold first_part_of.
  pose proof (length_take_until (Ascii.eqb "."%char) hostname). lia.
Qed.

End LabelLength.

(** * Labels are stable *)

Section LabelIdempotence.

Import Charts Netloc.
Local Open Scope string_scope.

Lemma forallb_app (p : ascii -> bool) (a b : string) :
  Url.forallb p (a ++ b) = Url.forallb p a && Url.forallb p b.
Proof.
  induction a as [|c a IH]; simpl; [reflexivity|].
  rewrite IH, andb_assoc. reflexivity.
Qed.

Lemma forallb_impl (p q : ascii -> bool) (s : string) :
  (forall c, p c = true -> q c = true) ->
  Url.forallb p s = true -> Url.forallb q s = true.
Proof.
  intros H. induction s as [|c s IH]; simpl; [reflexivity|].
  intros Hs. apply andb_true_iff in Hs. destruct Hs as [Hc Hs].
  rewrite (H c Hc), (IH Hs). reflexivity.
Qed.

Lemma forallb_substring (p : ascii -> bool) (s : string) (n m : nat) :
  Url.forallb p s = true -> Url.forallb p (substring n m s) = true.
Proof.
  revert n m. induction s as [|c s IH]; intros n m Hs.
  - destruct n, m; reflexivity.
  - simpl in Hs. apply andb_true_iff in Hs. destruct Hs as [Hc Hs].
    destruct n as [|n].
    + destruct m as [|m]; simpl; [reflexivity|].
      rewrite Hc, (IH O m Hs). reflexivity.
    + simpl. apply IH, Hs.
Qed.

Lemma forallb_lstrip (p : ascii -> bool) (s : string) :
  Url.forallb p s = true -> Url.forallb p (Url.lstrip s) = true.
Proof.
  induction s as [|c s IH]; simpl; [reflexivity|]. intros Hs.
  destruct (Url.is_c0_or_space c); [|exact Hs].
  apply andb_true_iff in Hs. apply IH, Hs.
Qed.

Lemma forallb_remove_unsafe (p : ascii -> bool) (s : string) :
  Url.forallb p s = true -> Url.forallb p (Url.remove_unsafe s) = true.
Proof.
  induction s as [|c s IH]; simpl; [reflexivity|]. intros Hs.
  apply andb_true_iff in Hs. destruct Hs as [Hc Hs].
  destruct (Url.unsafe c); simpl; [apply IH, Hs|].
  rewrite Hc, (IH Hs). reflexivity.
Qed.

Lemma forallb_take_until (p stop : ascii -> bool) (s : string) :
  Url.forallb p s = true -> Url.forallb p (Url.take_until stop s) = true.
Proof.
  induction s as [|c s IH]; simpl; [reflexivity|]. intros Hs.
  apply andb_true_iff in Hs. destruct Hs as [Hc Hs].
  destruct (stop c); simpl; [reflexivity|].
  rewrite Hc, (IH Hs). reflexivity.
Qed.

Lemma substring_full (s : string) : substring 0 (String.length s) s = s.
Proof. induction s as [|c s IH]; simpl; [reflexivity|]. rewrite IH. reflexivity. Qed.

Lemma drop_0 (s : string) : Url.drop 0 s = s.
Proof. unfold Url.drop. rewrite Nat.sub_0_r. apply substring_full. Qed.

Lemma drop_cons (n : nat) (c : ascii) (s : string) :
  Url.drop (S n) (String c s) = Url.drop n s.
Proof. reflexivity. Qed.

Lemma drop_app_le (n : nat) (a b : string) :
  (n <= String.length a)%nat -> Url.drop n (a ++ b) = Url.drop n a ++ b.
Proof.
  revert a. induction n as [|n IH]; intros a Hn.
  - rewrite !drop_0. reflexivity.
  - destruct a as [|c a]; simpl in Hn; [lia|].
    simpl append. rewrite !drop_cons. apply IH. lia.
Qed.

Lemma substring_0_app_le (n : nat) (a b : string) :
  (n <= String.length a)%nat -> substring 0 n (a ++ b) = substring 0 n a.
Proof.
  revert a. induction n as [|n IH]; intros a Hn.
  - destruct a; destruct b; reflexivity.
  - destruct a as [|c a]; simpl in Hn; [lia|].
    simpl. rewrite IH by lia. reflexivity.
Qed.

Lemma substring_0_app_ge (k : nat) (a b : string) :
  substring 0 (String.length a + k) (a ++ b) = a ++ substring 0 k b.
Proof.
  induction a as [|c a IH]; simpl; [reflexivity|]. rewrite IH. reflexivity.
Qed.

Lemma find_lt (c : ascii) (s : string) (i : nat) :
  Url.find c s = Some i -> (i < String.length s)%nat.
Proof.
  revert i. induction s as [|c' s IH]; simpl; intros i H; [discriminate|].
  destruct (Ascii.eqb c' c).
  - injection H as <-. lia.
  - destruct (Url.find c s) as [j|]; [|discriminate].
    injection H as <-. specialize (IH j eq_refl). lia.
Qed.

Lemma find_app_left (c : ascii) (a b : string) (i : nat) :
  Url.find c a = Some i -> Url.find c (a ++ b) = Some i.
Proof.
  revert i. induction a as [|c' a IH]; simpl; intros i H; [discriminate|].
  destruct (Ascii.eqb c' c); [exact H|].
  destruct (Url.find c a) as [j|]; [|discriminate].
  rewrite (IH j eq_refl). exact H.
Qed.

Lemma find_app_none (c : ascii) (a b : string) :
  Url.find c a = None ->
  Url.find c (a ++ b)
  = option_map (fun k => (String.length a + k)%nat) (Url.find c b).
Proof.
  induction a as [|c' a IH]; simpl; intros H.
  - destruct (Url.find c b); reflexivity.
  - destruct (Ascii.eqb c' c); [discriminate|].
    destruct (Url.find c a) as [j|]; [discriminate|].
    rewrite IH by reflexivity. destruct (Url.find c b); reflexivity.
Qed.

Lemma lstrip_app_dot (p r : string) :
  Url.lstrip (p ++ String "."%char r) = Url.lstrip p ++ String "."%char r.
Proof.
  induction p as [|c p IH]; simpl; [reflexivity|].
  destruct (Url.is_c0_or_space c); [exact IH|reflexivity].
Qed.

Lemma remove_unsafe_app (a b : string) :
  Url.remove_unsafe (a ++ b) = Url.remove_unsafe a ++ Url.remove_unsafe b.
Proof.
  induction a as [|c a IH]; simpl; [reflexivity|].
  destruct (Url.unsafe c); simpl; rewrite IH; reflexivity.
Qed.

Lemma cleaned_app_dot (p r : string) :
  cleaned (p ++ String "."%char r)
  = cleaned p ++ String "."%char (Url.remove_unsafe r).
Proof.
  unfold cleaned. rewrite lstrip_app_dot, remove_unsafe_app. reflexivity.
Qed.

(** A string without a slash has no network location. *)
Lemma after_scheme_no_slash (u : string) :
  Url.forallb (fun c => negb (Ascii.eqb c "/"%char)) u = true ->
  after_scheme u = "".
Proof.
  unfold after_scheme. intros H.
  destruct u as [|c1 u]; [reflexivity|].
  simpl in H. apply andb_true_iff in H. destruct H as [H1 _].
  apply negb_true_iff in H1.
  destruct u as [|c2 u]; simpl.
  - rewrite H1. reflexivity.
  - rewrite H1. reflexivity.
Qed.

Lemma strip_scheme_no_slash (u : string) :
  Url.forallb (fun c => negb (Ascii.eqb c "/"%char)) u = true ->
  Url.forallb (fun c => negb (Ascii.eqb c "/"%char)) (Url.strip_scheme u)
  = true.
Proof.
  intros H. unfold Url.strip_scheme.
  destruct (Url.find ":"%char u) as [[|i]|]; try exact H.
  destruct u as [|c0 u']; [exact H|].
  destruct (Url.is_ascii c0 && Url.is_alpha c0
            && Url.forallb Url.scheme_char
                 (substring 0 (S i) (String c0 u'))); [|exact H].
  unfold Url.drop. apply forallb_substring, H.
Qed.

Lemma candidate_no_slash (s : string) :
  Url.forallb (fun c => negb (Ascii.eqb c "/"%char)) s = true ->
  candidate s = "".
Proof.
  intros H. unfold candidate, cleaned.
  apply after_scheme_no_slash, strip_scheme_no_slash.
  apply forallb_remove_unsafe, forallb_lstrip, H.
Qed.

Lemma scheme_char_no_slash (c : ascii) :
  Url.scheme_char c = true -> negb (Ascii.eqb c "/"%char) = true.
Proof.
  intros H. destruct (Ascii.eqb_spec c "/"%char) as [->|_]; [|reflexivity].
  vm_compute in H. discriminate.
Qed.

Lemma substring_two (c1 c2 : ascii) (x : string) :
  substring 0 2 (String c1 (String c2 x)) = String c1 (String c2 "").
Proof. destruct x; reflexivity. Qed.

(** Cutting a url at a dot that the network location does not reach. *)
Lemma after_scheme_prefix (p r : string) :
  after_scheme (p ++ String "."%char r) = "" -> after_scheme p = "".
Proof.
  unfold after_scheme.
  destruct p as [|c1 [|c2 q]]; try reflexivity.
  - simpl. destruct (Ascii.eqb c1 "/"%char); reflexivity.
  - cbn [append]. rewrite !substring_two.
    destruct (String.eqb (String c1 (String c2 "")) "//"); [|reflexivity].
    unfold Url._splitnetloc. rewrite !drop_cons, !drop_0.
    destruct q as [|c q]; simpl.
    + discriminate.
    + destruct (Url.netloc_delim c); [reflexivity|discriminate].
Qed.

Lemma strip_scheme_cons (c0 : ascii) (u : string) (i : nat) :
  Url.find ":"%char (String c0 u) = Some (S i) ->
  Url.strip_scheme (String c0 u)
  = if Url.is_ascii c0 && Url.is_alpha c0
       && Url.forallb Url.scheme_char (substring 0 (S i) (String c0 u))
    then Url.drop (S i + 1) (String c0 u)
    else String c0 u.
Proof. intros E. unfold Url.strip_scheme. rewrite E. reflexivity. Qed.

Lemma strip_scheme_unchanged (u : string) :
  Url.find ":"%char u = None \/ Url.find ":"%char u = Some O ->
  Url.strip_scheme u = u.
Proof.
  intros [E|E]; unfold Url.strip_scheme; rewrite E; reflexivity.
Qed.

Lemma strip_scheme_app (p x : string) (i : nat) :
  Url.find ":"%char p = Some i ->
  Url.strip_scheme (p ++ x) = Url.strip_scheme p ++ x.
Proof.
  intros Ef. pose proof (find_lt _ _ _ Ef) as Hi.
  pose proof (find_app_left _ _ x _ Ef) as Ef'.
  destruct i as [|i].
  - rewrite !strip_scheme_unchanged by (right; assumption). reflexivity.
  - destruct p as [|c0 p']; [discriminate|].
    change (String c0 p' ++ x) with (String c0 (p' ++ x)) in *.
    rewrite (strip_scheme_cons c0 (p' ++ x) i Ef').
    rewrite (strip_scheme_cons c0 p' i Ef).
    change (String c0 (p' ++ x)) with (String c0 p' ++ x).
    rewrite (substring_0_app_le (S i)) by lia.
    destruct (Url.is_ascii c0 && Url.is_alpha c0
              && Url.forallb Url.scheme_char
                   (substring 0 (S i) (String c0 p'))); [|reflexivity].
    apply drop_app_le. lia.
Qed.

Lemma strip_scheme_prefix (p r : string) :
  after_scheme (Url.strip_scheme (p ++ String "."%char r)) = "" ->
  after_scheme (Url.strip_scheme p) = "".
Proof.
  intros H.
  destruct (Url.find ":"%char p) as [i|] eqn:Ef.
  - rewrite (strip_scheme_app p _ i Ef) in H.
    apply after_scheme_prefix in H. exact H.
  - rewrite (strip_scheme_unchanged p) by (left; exact Ef).
    pose proof (find_app_none ":"%char p (String "."%char r) Ef) as EU.
    destruct (Url.find ":"%char (p ++ String "."%char r)) as [[|j]|] eqn:Eu.
    + rewrite strip_scheme_unchanged in H by (right; exact Eu).
      apply after_scheme_prefix in H. exact H.
    + destruct (Url.find ":"%char (String "."%char r)) as [k|];
        [|discriminate].
      simpl option_map in EU. injection EU as EU.
      destruct (p ++ String "."%char r) as [|c0 u] eqn:EU'.
      { destruct p; discriminate. }
      rewrite (strip_scheme_cons c0 u j Eu) in H.
      destruct (Url.is_ascii c0 && Url.is_alpha c0
                && Url.forallb Url.scheme_char
                     (substring 0 (S j) (String c0 u))) eqn:Ec.
      * apply andb_true_iff in Ec. destruct Ec as [_ Hsc].
        rewrite <- EU', EU, substring_0_app_ge, forallb_app in Hsc.
        apply andb_true_iff in Hsc. destruct Hsc as [Hsc _].
        apply after_scheme_no_slash.
        apply (forallb_impl Url.scheme_char); [|exact Hsc].
        apply scheme_char_no_slash.
      * rewrite <- EU' in H. apply after_scheme_prefix in H. exact H.
    + rewrite strip_scheme_unchanged in H by (left; exact Eu).
      apply after_scheme_prefix in H. exact H.
Qed.

Lemma candidate_prefix (p r : string) :
  Url.forallb (fun c => negb (Ascii.eqb "."%char c)) p = true ->
  candidate (p ++ String "."%char r) = "" -> candidate p = "".
Proof.
  intros Hdot H. unfold candidate in *. rewrite cleaned_app_dot in H.
  apply strip_scheme_prefix in H. exact H.
Qed.

Lemma append_nil_r (s : string) : s ++ "" = s.
Proof. induction s as [|c s IH]; simpl; [reflexivity|]. rewrite IH. reflexivity. Qed.

Lemma candidate_no_delim (url : string) :
  Url.forallb (fun c => negb (Url.netloc_delim c)) (candidate url) = true.
Proof.
  unfold candidate, after_scheme.
  destruct (String.eqb _ "//"); [|reflexivity].
  unfold Url._splitnetloc.
  destruct (take_until_split Url.netloc_delim
              (Url.drop 2 (Url.strip_scheme (cleaned url))))
    as (_ & _ & _ & H).
  exact H.
Qed.

Section Parser.
Variable bracketed_ok : string -> bool.
Variable nfkc_ok : string -> bool.

Lemma parse_candidate (url netloc : string) :
  Url.urlparse_netloc bracketed_ok nfkc_ok url = Some netloc ->
  netloc = candidate url.
Proof.
  unfold Url.urlparse_netloc. fold (cleaned url).
  change (if String.eqb (substring 0 2 (Url.strip_scheme (cleaned url))) "//"
          then Url._splitnetloc (Url.strip_scheme (cleaned url)) else "")
    with (candidate url).
  cbv zeta.
  destruct (xorb _ _); [discriminate|].
  destruct (_ && _ && negb (bracketed_ok _)); [discriminate|].
  destruct (_ && _ && negb (nfkc_ok _)); [discriminate|].
  intros H. injection H as <-. reflexivity.
Qed.

Lemma parse_without_candidate (url : string) :
  candidate url = "" ->
  Url.urlparse_netloc bracketed_ok nfkc_ok url = Some "".
Proof.
  intros H. unfold Url.urlparse_netloc. fold (cleaned url).
  change (if String.eqb (substring 0 2 (Url.strip_scheme (cleaned url))) "//"
          then Url._splitnetloc (Url.strip_scheme (cleaned url)) else "")
    with (candidate url).
  rewrite H. reflexivity.
Qed.

(** A dot-free, non-empty string without network location is its own
    label. *)
Lemma shorten_fixed (r : string) :
  r <> "" ->
  Url.forallb (fun c => negb (Ascii.eqb "."%char c)) r = true ->
  candidate r = "" ->
  _shorten_endpoint bracketed_ok nfkc_ok r = r.
Proof.
  intros Hne Hdot Hc. unfold _shorten_endpoint.
  rewrite (parse_without_candidate r Hc). simpl.
  unfold first_part_of. rewrite (take_until_none _ _ Hdot).
  apply String.eqb_neq in Hne. rewrite Hne. reflexivity.
Qed.

(** Shortening is idempotent: the label of a label is the label itself, so
    a set of labels is not changed by shortening it again. *)
Theorem shorten_endpoint_idempotent (url : string) :
  _shorten_endpoint bracketed_ok nfkc_ok
    (_shorten_endpoint bracketed_ok nfkc_ok url)
  = _shorten_endpoint bracketed_ok nfkc_ok url.
Proof.
  destruct (Url.urlparse_netloc bracketed_ok nfkc_ok url) as [netloc|] eqn:E.
  2:{ assert (Hr : _shorten_endpoint bracketed_ok nfkc_ok url = url).
      { unfold _shorten_endpoint. rewrite E. reflexivity. }
      rewrite Hr. exact Hr. }
  pose proof (parse_candidate url netloc E) as Hn.
  set (hostname := if String.eqb netloc "" then url else netloc).
  destruct (String.eqb (first_part_of hostname) "") eqn:Ef.
  { assert (Hr : _shorten_endpoint bracketed_ok nfkc_ok url = url).
    { unfold _shorten_endpoint. rewrite E. fold hostname. rewrite Ef.
      reflexivity. }
    rewrite Hr. exact Hr. }
  assert (Hr : _shorten_endpoint bracketed_ok nfkc_ok url
               = first_part_of hostname).
  { unfold _shorten_endpoint. rewrite E. fold hostname. rewrite Ef.
    reflexivity. }
  rewrite Hr. apply String.eqb_neq in Ef.
  destruct (take_until_split (Ascii.eqb "."%char) hostname)
    as (rest & Hsplit & Hrest & Hdot).
  fold (first_part_of hostname) in Hsplit, Hdot.
  apply shorten_fixed; [exact Ef|exact Hdot|].
  unfold hostname in *. destruct (String.eqb_spec netloc "") as [En|En].
  - (* no network location: the label is cut from the raw string *)
    assert (Hc : candidate url = "") by congruence.
    destruct Hrest as [->|(c & r & -> & Hcd)].
    + rewrite append_nil_r in Hsplit. rewrite <- Hsplit. exact Hc.
    + apply Ascii.eqb_eq in Hcd. subst c.
      rewrite Hsplit in Hc. apply candidate_prefix in Hc; assumption.
  - (* the label is cut from the network location, which has no slash *)
    apply candidate_no_slash.
    unfold first_part_of. apply forallb_take_until.
    rewrite Hn. apply (forallb_impl (fun c => negb (Url.netloc_delim c))).
    + intros c Hc. unfold Url.netloc_delim in Hc.
      destruct (Ascii.eqb c "/"%char); [discriminate|reflexivity].
    + apply candidate_no_delim.
Qed.

End Parser.

End LabelIdempotence.
